(** * odas_ros: the ODAS visualization node

    A shallow embedding of [scripts/odas_visualization_node.py] and of the
    library functions it calls, followed by the properties of the
    configuration gate, of the two stream callbacks and of the conversion
    of a direction vector to a quaternion.

    Conventions of the embedding:
    - message scalars ([float32]/[float64] fields) are real numbers;
    - a Python dictionary is a finite map from strings;
    - a method is a computation over the pair of the node object and the
      ROS environment (clock, topics, log); it returns a value or raises,
      and the writes made before a [raise] stay made. *)

From Stdlib Require Import Reals Lra Lia ZArith String Ascii List.
From stdpp Require Import base option list strings gmap pretty.

Set Warnings "-register-all".
Local Open Scope string_scope.

(** ** Python values and exceptions *)

(** The values [libconf.load] builds: a group is a dictionary, a list or
    an array is a sequence, a scalar setting is a string, an integer or a
    boolean. *)
Inductive pyval : Type :=
  | VStr (s : string)
  | VInt (z : Z)
  | VBool (b : bool)
  | VList (l : list pyval)
  | VDict (d : gmap string pyval).

Inductive exn : Type :=
  | ValueError (msg : string)
  | KeyError (key : string)
  | TypeError
  | IndexError
  | AttributeError (attr : string).

Inductive result (A : Type) : Type :=
  | Ok (a : A)
  | Raise (e : exn).
Arguments Ok {A} a.
Arguments Raise {A} e.

(** [v[k]] for a string key [k]: only a dictionary can be subscripted by
    a string, and a missing key is a [KeyError]. *)
Definition getitem (v : pyval) (k : string) : result pyval :=
  match v with
  | VDict d => match d !! k with
               | Some x => Ok x
               | None => Raise (KeyError k)
               end
  | _ => Raise TypeError
  end.

(** [v != s] for a string literal [s]: a value that is not a string is
    different from every string. *)
Definition ne_str (v : pyval) (s : string) : bool :=
  match v with
  | VStr t => negb (String.eqb t s)
  | _ => true
  end.

Definition rbind {A B} (r : result A) (k : A -> result B) : result B :=
  match r with
  | Ok a => k a
  | Raise e => Raise e
  end.

(** [cfg[k1][k2]...] evaluated left to right. *)
Definition getpath (v : pyval) (ks : list string) : result pyval :=
  foldl (fun r k => rbind r (fun d => getitem d k)) (Ok v) ks.

(** The double quote character, for the messages that contain one. *)
Definition dquote : string := String "034"%char EmptyString.

(** ** Messages *)

(** [rospy.Time]. *)
Record Time : Type := { secs : Z; nsecs : Z }.

(** [std_msgs/Header]. The sequence number is written by the transport
    when a message is sent, never by the node, and is left out. *)
Record Header : Type := { stamp : Time; frame_id : string }.

(** [odas_ros/OdasSsl]: a potential source, a point of the unit sphere
    and its energy. *)
Record OdasSsl : Type := { ssl_x : R; ssl_y : R; ssl_z : R; ssl_E : R }.

Record OdasSslArrayStamped : Type :=
  { ssl_header : Header; ssl_sources : list OdasSsl }.

(** [odas_ros/OdasSst]: a tracked source; the node reads its direction
    only. *)
Record OdasSst : Type := { sst_x : R; sst_y : R; sst_z : R }.

Record OdasSstArrayStamped : Type :=
  { sst_header : Header; sst_sources : list OdasSst }.

(** [geometry_msgs/PoseStamped] and its parts. *)
Record Point : Type := { px : R; py : R; pz : R }.
Record Quaternion : Type := { qx : R; qy : R; qz : R; qw : R }.
Record Pose : Type := { position : Point; orientation : Quaternion }.
Record PoseStamped : Type := { header : Header; pose : Pose }.

(** [sensor_msgs/PointField] and [sensor_msgs/PointCloud2]. The packed
    byte buffer of a cloud is kept as the sequence of the points that
    were packed into it. *)
Record PointField : Type :=
  { name : string; offset : N; datatype : N; count : N }.

Definition FLOAT32 : N := 7.

Record PointCloud2 : Type :=
  { pc_header : Header;
    height : N;
    width : N;
    fields : list PointField;
    is_bigendian : bool;
    point_step : N;
    row_step : N;
    data : list (R * R * R * R);
    is_dense : bool }.

(** The message a constructor called without arguments builds. *)
Definition Time0 : Time := {| secs := 0; nsecs := 0 |}.
Definition Header0 : Header := {| stamp := Time0; frame_id := "" |}.
Definition PoseStamped0 : PoseStamped :=
  {| header := Header0;
     pose := {| position := {| px := 0; py := 0; pz := 0 |};
                orientation := {| qx := 0; qy := 0; qz := 0; qw := 0 |} |} |}.

(** Bytes of one value of a point field datatype ([_DATATYPES] of
    [sensor_msgs.point_cloud2]). *)
Definition datatype_size (d : N) : N :=
  match d with
  | 1 | 2 => 1
  | 3 | 4 => 2
  | 5 | 6 | 7 => 4
  | 8 => 8
  | _ => 0
  end%N.

(** Size of the structure [_get_struct_fmt] describes: the fields by
    increasing offset, which is how the node lists them, each one padded
    up to the offset it declares; a field of unknown datatype is skipped. *)
Definition struct_size (fs : list PointField) : N :=
  foldl (fun off f =>
           (N.max off (offset f) + count f * datatype_size (datatype f))%N)
        0%N fs.

(** [sensor_msgs.point_cloud2.create_cloud]. *)
Definition create_cloud (h : Header) (fs : list PointField)
    (points : list (R * R * R * R)) : PointCloud2 :=
  {| pc_header := h;
     height := 1;
     width := N.of_nat (length points);
     fields := fs;
     is_bigendian := false;
     point_step := struct_size fs;
     row_step := (struct_size fs * N.of_nat (length points))%N;
     data := points;
     is_dense := false |}.

(** ** The numeric library functions *)

Module Numeric.
Local Open Scope R_scope.

(** [numpy.arctan2] on real numbers: the angle of the point [(x, y)],
    in the interval from [-PI] (excluded) to [PI], and [0] at the
    origin. *)
Definition arctan2 (y x : R) : R :=
  if Rlt_dec 0 x then atan (y / x)
  else if Rlt_dec x 0 then
    if Rle_dec 0 y then atan (y / x) + PI else atan (y / x) - PI
  else if Rlt_dec 0 y then PI / 2
  else if Rlt_dec y 0 then - (PI / 2)
  else 0.

(** [_NEXT_AXIS] of [tf.transformations]. *)
Definition _NEXT_AXIS : list nat := [1; 2; 0; 1]%nat.

(** An entry of [_AXES2TUPLE]: first axis, parity, repetition, frame. *)
Definition axes : Type := (nat * nat * nat * nat)%type.

(** ['sxyz'], the default of [quaternion_from_euler], and ['rxyz']. *)
Definition sxyz : axes := (0, 0, 0, 0)%nat.
Definition rxyz : axes := (2, 1, 0, 1)%nat.

Definition truthy (n : nat) : bool := negb (Nat.eqb n 0).

(** [tf.transformations.quaternion_from_euler(ai, aj, ak, axes)], which
    [tf_conversions.transformations] re-exports, with [axes] already
    looked up in [_AXES2TUPLE]. The result is an array of four cells,
    [x, y, z, w]; the array starts uninitialised and every cell is
    written, the cells start here at [0]. *)
Definition quaternion_from_euler (ai aj ak : R) (ax : axes) : list R :=
  let '(firstaxis, parity, repetition, frame) := ax in
  let i := firstaxis in
  let j := nth (i + parity) _NEXT_AXIS 0%nat in
  let k := nth (i + 1 - parity) _NEXT_AXIS 0%nat in
  let '(ai, ak) := if truthy frame then (ak, ai) else (ai, ak) in
  let aj := if truthy parity then - aj else aj in
  let ai := ai / 2 in
  let aj := aj / 2 in
  let ak := ak / 2 in
  let ci := cos ai in
  let si := sin ai in
  let cj := cos aj in
  let sj := sin aj in
  let ck := cos ak in
  let sk := sin ak in
  let cc := ci * ck in
  let cs := ci * sk in
  let sc := si * ck in
  let ss := si * sk in
  let quaternion := replicate 4 0 in
  let quaternion :=
    if truthy repetition then
      <[3%nat := cj * (cc - ss)]>
        (<[k := sj * (cs - sc)]>
           (<[j := sj * (cc + ss)]>
              (<[i := cj * (cs + sc)]> quaternion)))
    else
      <[3%nat := cj * cc + sj * ss]>
        (<[k := cj * cs - sj * sc]>
           (<[j := cj * ss + sj * cc]>
              (<[i := cj * sc - sj * cs]> quaternion))) in
  if truthy parity
  then <[j := nth j quaternion 0 * -1]> quaternion
  else quaternion.

End Numeric.

(** ** The direction to orientation converter *)

Module Converter.
Import Numeric.
Local Open Scope R_scope.

(** [_unitVector_to_quaternion]. *)
Definition _unitVector_to_quaternion (x y z : R) : list R :=
  let yaw := arctan2 y x in
  let pitch := - arctan2 z (sqrt (x * x + y * y)) in
  let roll := 0 in
  let q := quaternion_from_euler roll pitch yaw sxyz in
  q.

End Converter.

(** ** The node and the ROS environment *)

Inductive Msg : Type :=
  | MPose (p : PoseStamped)
  | MCloud (c : PointCloud2).

Inductive LogLevel : Type := LogInfo | LogWarn | LogError.

(** What the node sees of ROS and what it does to it: the clock that
    [rospy.Time.now()] reads, the messages sent so far, each under the
    name of its topic, oldest first, and the lines logged so far. *)
Record Ros : Type :=
  { clock : Time;
    published : list (string * Msg);
    rosout : list (LogLevel * string) }.

(** A publisher or a subscriber is known by the topic it was made for. *)
Record Publisher : Type := { pub_topic : string; pub_queue_size : nat }.
Record Subscriber : Type := { sub_topic : string; sub_queue_size : nat }.

(** The attributes of an [OdasVisualizationNode]; an attribute that was
    never assigned is [None]. *)
Record OdasVisualizationNode : Type :=
  { _configuration : option pyval;
    _sst_input_PoseStamped : option PoseStamped;
    _sst_sub : option Subscriber;
    _sst_pose_pub : option Publisher;
    _ssl_sub : option Subscriber;
    _ssl_pcl_pub : option Publisher }.

Record World : Type := { self : OdasVisualizationNode; ros : Ros }.

(** A method: it runs in a world, returns or raises, and leaves a world. *)
Definition M (A : Type) : Type := World -> result A * World.

Definition ret {A} (a : A) : M A := fun w => (Ok a, w).
Definition raise {A} (e : exn) : M A := fun w => (Raise e, w).
Definition bind {A B} (m : M A) (k : A -> M B) : M B :=
  fun w => match m w with
           | (Ok a, w') => k a w'
           | (Raise e, w') => (Raise e, w')
           end.
Definition lift {A} (r : result A) : M A := fun w => (r, w).

Notation "x <- m ;; k" := (bind m (fun x => k))
  (at level 100, m at next level, right associativity).
Notation "m ;;; k" := (bind m (fun _ => k))
  (at level 100, right associativity).

Definition get_self : M OdasVisualizationNode := fun w => (Ok (self w), w).
Definition set_self (n : OdasVisualizationNode) : M unit :=
  fun w => (Ok tt, {| self := n; ros := ros w |}).

(** Reading an attribute, an [AttributeError] when it was never set. *)
Definition getattr {A} (f : OdasVisualizationNode -> option A)
    (attr : string) : M A :=
  fun w => match f (self w) with
           | Some a => (Ok a, w)
           | None => (Raise (AttributeError attr), w)
           end.

(** [rospy.Time.now()]. *)
Definition Time_now : M Time := fun w => (Ok (clock (ros w)), w).

(** [pub.publish(msg)]: the message is serialised at the call, so what
    is sent is the content the object has then. *)
Definition publish (p : Publisher) (m : Msg) : M unit :=
  fun w => (Ok tt,
            {| self := self w;
               ros := {| clock := clock (ros w);
                         published := published (ros w) ++ [(pub_topic p, m)];
                         rosout := rosout (ros w) |} |}).

(** [rospy.logerr(msg)]. *)
Definition logerr (msg : string) : M unit :=
  fun w => (Ok tt,
            {| self := self w;
               ros := {| clock := clock (ros w);
                         published := published (ros w);
                         rosout := rosout (ros w) ++ [(LogError, msg)] |} |}).

(** Assignments to the attributes of [self]. *)
Definition set_configuration (c : pyval) : M unit :=
  n <- get_self ;;
  set_self {| _configuration := Some c;
              _sst_input_PoseStamped := _sst_input_PoseStamped n;
              _sst_sub := _sst_sub n; _sst_pose_pub := _sst_pose_pub n;
              _ssl_sub := _ssl_sub n; _ssl_pcl_pub := _ssl_pcl_pub n |}.

Definition set_sst_input_PoseStamped (p : PoseStamped) : M unit :=
  n <- get_self ;;
  set_self {| _configuration := _configuration n;
              _sst_input_PoseStamped := Some p;
              _sst_sub := _sst_sub n; _sst_pose_pub := _sst_pose_pub n;
              _ssl_sub := _ssl_sub n; _ssl_pcl_pub := _ssl_pcl_pub n |}.

Definition set_sst_sub (s : Subscriber) : M unit :=
  n <- get_self ;;
  set_self {| _configuration := _configuration n;
              _sst_input_PoseStamped := _sst_input_PoseStamped n;
              _sst_sub := Some s; _sst_pose_pub := _sst_pose_pub n;
              _ssl_sub := _ssl_sub n; _ssl_pcl_pub := _ssl_pcl_pub n |}.

Definition set_sst_pose_pub (p : Publisher) : M unit :=
  n <- get_self ;;
  set_self {| _configuration := _configuration n;
              _sst_input_PoseStamped := _sst_input_PoseStamped n;
              _sst_sub := _sst_sub n; _sst_pose_pub := Some p;
              _ssl_sub := _ssl_sub n; _ssl_pcl_pub := _ssl_pcl_pub n |}.

Definition set_ssl_sub (s : Subscriber) : M unit :=
  n <- get_self ;;
  set_self {| _configuration := _configuration n;
              _sst_input_PoseStamped := _sst_input_PoseStamped n;
              _sst_sub := _sst_sub n; _sst_pose_pub := _sst_pose_pub n;
              _ssl_sub := Some s; _ssl_pcl_pub := _ssl_pcl_pub n |}.

Definition set_ssl_pcl_pub (p : Publisher) : M unit :=
  n <- get_self ;;
  set_self {| _configuration := _configuration n;
              _sst_input_PoseStamped := _sst_input_PoseStamped n;
              _sst_sub := _sst_sub n; _sst_pose_pub := _sst_pose_pub n;
              _ssl_sub := _ssl_sub n; _ssl_pcl_pub := Some p |}.

(** Assignments through [self._sst_input_PoseStamped]: each one reads
    the attribute and writes one field of the object it holds. *)
Definition with_position (f : Point -> Point) (p : PoseStamped) : PoseStamped :=
  {| header := header p;
     pose := {| position := f (position (pose p));
                orientation := orientation (pose p) |} |}.

Definition with_orientation (f : Quaternion -> Quaternion) (p : PoseStamped)
    : PoseStamped :=
  {| header := header p;
     pose := {| position := position (pose p);
                orientation := f (orientation (pose p)) |} |}.

Definition with_header (f : Header -> Header) (p : PoseStamped) : PoseStamped :=
  {| header := f (header p); pose := pose p |}.

Definition update_pose (f : PoseStamped -> PoseStamped) : M unit :=
  p <- getattr _sst_input_PoseStamped "_sst_input_PoseStamped" ;;
  set_sst_input_PoseStamped (f p).

(** ** The methods of the node *)

(** [_verify_ssl_configuration]. *)
Definition _verify_ssl_configuration : M bool :=
  cfg <- getattr _configuration "_configuration" ;;
  ty <- lift (getpath cfg ["ssl"; "potential"; "interface"; "type"]) ;;
  if ne_str ty "socket" then ret false
  else
    fmt <- lift (getpath cfg ["ssl"; "potential"; "format"]) ;;
    if ne_str fmt "json"
    then raise (ValueError ("The ssl format must be " ++ dquote ++ "json" ++ dquote))
    else ret true.

(** [_verify_sst_configuration]. *)
Definition _verify_sst_configuration : M bool :=
  cfg <- getattr _configuration "_configuration" ;;
  ty <- lift (getpath cfg ["sst"; "tracked"; "interface"; "type"]) ;;
  if ne_str ty "socket" then ret false
  else
    fmt <- lift (getpath cfg ["sst"; "tracked"; "format"]) ;;
    if ne_str fmt "json"
    then raise (ValueError ("The sst format must be " ++ dquote ++ "json" ++ dquote))
    else ret true.

(** [__init__]. [loaded] is what [_load_configuration] returned for the
    path the parameter server gave. *)
Definition __init__ (loaded : pyval) : M unit :=
  set_configuration loaded ;;;
  sst_ok <- _verify_sst_configuration ;;
  (if sst_ok then
     set_sst_input_PoseStamped PoseStamped0 ;;;
     update_pose (with_position (fun p => {| px := 0; py := py p; pz := pz p |})) ;;;
     update_pose (with_position (fun p => {| px := px p; py := 0; pz := pz p |})) ;;;
     update_pose (with_position (fun p => {| px := px p; py := py p; pz := 0 |})) ;;;
     set_sst_sub {| sub_topic := "sst"; sub_queue_size := 10 |} ;;;
     set_sst_pose_pub {| pub_topic := "sst_pose"; pub_queue_size := 1 |}
   else ret tt) ;;;
  ssl_ok <- _verify_ssl_configuration ;;
  if ssl_ok then
    set_ssl_sub {| sub_topic := "ssl"; sub_queue_size := 10 |} ;;;
    set_ssl_pcl_pub {| pub_topic := "ssl_pcl2"; pub_queue_size := 500 |}
  else ret tt.

(** [_ssl_cb]. *)
Definition _ssl_cb (ssl : OdasSslArrayStamped) : M unit :=
  if Nat.eqb (length (ssl_sources ssl)) 0 then ret tt
  else if Nat.ltb 0 (length (ssl_sources ssl)) then
    let cloud_points :=
      foldl (fun acc source =>
               (acc ++ [(ssl_x source, ssl_y source, ssl_z source, ssl_E source)])%list)
            [] (ssl_sources ssl) in
    now <- Time_now ;;
    let header := {| stamp := now; frame_id := frame_id (ssl_header ssl) |} in
    let fields :=
      [ {| name := "x"; offset := 0; datatype := FLOAT32; count := 1 |};
        {| name := "y"; offset := 4; datatype := FLOAT32; count := 1 |};
        {| name := "z"; offset := 8; datatype := FLOAT32; count := 1 |};
        {| name := "intensity"; offset := 12; datatype := FLOAT32; count := 1 |} ] in
    let pcl := create_cloud header fields cloud_points in
    pub <- getattr _ssl_pcl_pub "_ssl_pcl_pub" ;;
    publish pub (MCloud pcl)
  else ret tt.

(** [_sst_cb]. *)
Definition _sst_cb (sst : OdasSstArrayStamped) : M unit :=
  if Nat.eqb (length (sst_sources sst)) 0 then ret tt
  else if Nat.ltb 1 (length (sst_sources sst)) then
    logerr ("Invalid sst (len(sst.sources)="
            ++ pretty (length (sst_sources sst)) ++ ")")
  else
    match sst_sources sst !! 0%nat with
    | None => raise IndexError
    | Some s0 =>
      let x := sst_x s0 in
      let y := sst_y s0 in
      let z := sst_z s0 in
      let q := Converter._unitVector_to_quaternion x y z in
      update_pose (with_orientation (fun o =>
        {| qx := nth 0 q 0%R; qy := qy o; qz := qz o; qw := qw o |})) ;;;
      update_pose (with_orientation (fun o =>
        {| qx := qx o; qy := nth 1 q 0%R; qz := qz o; qw := qw o |})) ;;;
      update_pose (with_orientation (fun o =>
        {| qx := qx o; qy := qy o; qz := nth 2 q 0%R; qw := qw o |})) ;;;
      update_pose (with_orientation (fun o =>
        {| qx := qx o; qy := qy o; qz := qz o; qw := nth 3 q 0%R |})) ;;;
      update_pose (with_header (fun h =>
        {| stamp := stamp h; frame_id := frame_id (sst_header sst) |})) ;;;
      now <- Time_now ;;
      update_pose (with_header (fun h =>
        {| stamp := now; frame_id := frame_id h |})) ;;;
      pub <- getattr _sst_pose_pub "_sst_pose_pub" ;;
      p <- getattr _sst_input_PoseStamped "_sst_input_PoseStamped" ;;
      publish pub (MPose p)
    end.

(** ** Running the node *)

(** The object [__init__] receives, and ROS when the process starts. *)
Definition blank : OdasVisualizationNode :=
  {| _configuration := None; _sst_input_PoseStamped := None;
     _sst_sub := None; _sst_pose_pub := None;
     _ssl_sub := None; _ssl_pcl_pub := None |}.

Definition boot (t : Time) : World :=
  {| self := blank;
     ros := {| clock := t; published := []; rosout := [] |} |}.

Definition set_clock (t : Time) (w : World) : World :=
  {| self := self w;
     ros := {| clock := t; published := published (ros w);
               rosout := rosout (ros w) |} |}.

(** What [rospy.spin()] lets happen: time passes, and a message that
    arrives on a subscribed topic is handed to its callback, which is
    run to its end; a callback that raises is logged by the transport
    and the node goes on. *)
Inductive step : World -> World -> Prop :=
  | step_clock w t :
      step w (set_clock t w)
  | step_sst w sub ev r w' :
      _sst_sub (self w) = Some sub ->
      _sst_cb ev w = (r, w') ->
      step w w'
  | step_ssl w sub ev r w' :
      _ssl_sub (self w) = Some sub ->
      _ssl_cb ev w = (r, w') ->
      step w w'.

Inductive reachable : World -> Prop :=
  | reach_init loaded t w :
      __init__ loaded (boot t) = (Ok tt, w) ->
      reachable w
  | reach_step w w' :
      reachable w -> step w w' -> reachable w'.

(** ** Rotations as quaternions *)

(** The reference the converter is compared with: the unit quaternion of
    a rotation about a coordinate axis, the Hamilton product, the two
    ways of composing a roll, a pitch and a yaw, and the closed formula
    for roll, pitch and yaw. Angles are in radians, the frame is
    right-handed. *)
Module Rotation.
Local Open Scope R_scope.

Definition qmul (a b : Quaternion) : Quaternion :=
  {| qx := qw a * qx b + qx a * qw b + qy a * qz b - qz a * qy b;
     qy := qw a * qy b - qx a * qz b + qy a * qw b + qz a * qx b;
     qz := qw a * qz b + qx a * qy b - qy a * qx b + qz a * qw b;
     qw := qw a * qw b - qx a * qx b - qy a * qy b - qz a * qz b |}.

Definition rot_x (a : R) : Quaternion :=
  {| qx := sin (a / 2); qy := 0; qz := 0; qw := cos (a / 2) |}.
Definition rot_y (a : R) : Quaternion :=
  {| qx := 0; qy := sin (a / 2); qz := 0; qw := cos (a / 2) |}.
Definition rot_z (a : R) : Quaternion :=
  {| qx := 0; qy := 0; qz := sin (a / 2); qw := cos (a / 2) |}.

(** Intrinsic order roll, pitch, yaw: a roll about x, then a pitch
    about the y axis the roll has moved, then a yaw about the z axis
    both have moved; each new rotation multiplies on the right. *)
Definition intrinsic_rpy (roll pitch yaw : R) : Quaternion :=
  qmul (qmul (rot_x roll) (rot_y pitch)) (rot_z yaw).

(** Fixed axes, order roll, pitch, yaw: a roll about x, then a pitch
    about the y axis of the fixed frame, then a yaw about its z axis;
    each new rotation multiplies on the left. It is also the
    intrinsic order yaw, pitch, roll. *)
Definition fixed_rpy (roll pitch yaw : R) : Quaternion :=
  qmul (qmul (rot_z yaw) (rot_y pitch)) (rot_x roll).

(** The closed formula for roll, pitch and yaw. *)
Definition euler_to_quaternion (roll pitch yaw : R) : Quaternion :=
  let cr := cos (roll / 2) in
  let sr := sin (roll / 2) in
  let cp := cos (pitch / 2) in
  let sp := sin (pitch / 2) in
  let cy := cos (yaw / 2) in
  let sy := sin (yaw / 2) in
  {| qx := sr * cp * cy - cr * sp * sy;
     qy := cr * sp * cy + sr * cp * sy;
     qz := cr * cp * sy - sr * sp * cy;
     qw := cr * cp * cy + sr * sp * sy |}.

(** The array [x, y, z, w] of a quaternion. *)
Definition to_array (q : Quaternion) : list R := [qx q; qy q; qz q; qw q].

End Rotation.

(** ** Streams, outcomes and examples *)

(** The definitions the properties below are stated with. *)

(** The two streams, the section of the configuration each one reads and
    the method that checks it. *)
Inductive Stream : Type := Localization | Tracking.

Definition stream_tag (s : Stream) : string :=
  match s with Localization => "ssl" | Tracking => "sst" end.

Definition stream_group (s : Stream) : string :=
  match s with Localization => "potential" | Tracking => "tracked" end.

Definition type_path (s : Stream) : list string :=
  [stream_tag s; stream_group s; "interface"; "type"].

Definition format_path (s : Stream) : list string :=
  [stream_tag s; stream_group s; "format"].

Definition verify (s : Stream) : M bool :=
  match s with
  | Localization => _verify_ssl_configuration
  | Tracking => _verify_sst_configuration
  end.

Definition subscriber (s : Stream) (n : OdasVisualizationNode) : option Subscriber :=
  match s with Localization => _ssl_sub n | Tracking => _sst_sub n end.

Definition publisher (s : Stream) (n : OdasVisualizationNode) : option Publisher :=
  match s with Localization => _ssl_pcl_pub n | Tracking => _sst_pose_pub n end.

Definition format_error (s : Stream) : exn :=
  ValueError ("The " ++ stream_tag s ++ " format must be " ++ dquote ++ "json" ++ dquote).

(** What a check answers, as a function of the configuration alone. *)
Definition gate (s : Stream) (cfg : pyval) : result bool :=
  rbind (getpath cfg (type_path s)) (fun ty =>
  if ne_str ty "socket" then Ok false
  else rbind (getpath cfg (format_path s)) (fun fmt =>
       if ne_str fmt "json" then Raise (format_error s) else Ok true)).

(** The node [__init__] leaves when both checks answer. *)
Definition wired (loaded : pyval) (sst_ok ssl_ok : bool) : OdasVisualizationNode :=
  {| _configuration := Some loaded;
     _sst_input_PoseStamped := if sst_ok then Some PoseStamped0 else None;
     _sst_sub :=
       if sst_ok then Some {| sub_topic := "sst"; sub_queue_size := 10 |} else None;
     _sst_pose_pub :=
       if sst_ok then Some {| pub_topic := "sst_pose"; pub_queue_size := 1 |} else None;
     _ssl_sub :=
       if ssl_ok then Some {| sub_topic := "ssl"; sub_queue_size := 10 |} else None;
     _ssl_pcl_pub :=
       if ssl_ok then Some {| pub_topic := "ssl_pcl2"; pub_queue_size := 500 |}
       else None |}.

(** Configurations used as examples: the tracking stream is on a socket
    in json, the localization stream goes to a file, or is on a socket in
    binary. *)
Definition stream_conf (group type format : string) : pyval :=
  VDict {[ group :=
             VDict {[ "interface" := VDict {[ "type" := VStr type ]};
                      "format" := VStr format ]} ]}.

Definition conf_ssl_to_file : pyval :=
  VDict {[ "ssl" := stream_conf "potential" "file" "binary";
           "sst" := stream_conf "tracked" "socket" "json" ]}.

Definition conf_ssl_binary : pyval :=
  VDict {[ "ssl" := stream_conf "potential" "socket" "binary";
           "sst" := stream_conf "tracked" "socket" "json" ]}.

Definition conf_both_json : pyval :=
  VDict {[ "ssl" := stream_conf "potential" "socket" "json";
           "sst" := stream_conf "tracked" "socket" "json" ]}.

Definition world_of (cfg : pyval) (t : Time) : World :=
  {| self := wired cfg false false; ros := ros (boot t) |}.

Definition point_of (d : OdasSsl) : R * R * R * R :=
  (ssl_x d, ssl_y d, ssl_z d, ssl_E d).

(** Events and worlds used as examples. *)
Definition ssl_event_empty : OdasSslArrayStamped :=
  {| ssl_header := {| stamp := Time0; frame_id := "odas" |}; ssl_sources := [] |}.

Definition ssl_event_two : OdasSslArrayStamped :=
  {| ssl_header := {| stamp := Time0; frame_id := "odas" |};
     ssl_sources := [ {| ssl_x := 1; ssl_y := 0; ssl_z := 0; ssl_E := 1 |};
                      {| ssl_x := 0; ssl_y := 1; ssl_z := 0; ssl_E := 0 |} ] |}.

Definition world_both_wired : World :=
  {| self := wired conf_both_json true true;
     ros := ros (boot {| secs := 7; nsecs := 0 |}) |}.

Definition origin : Point := {| px := 0; py := 0; pz := 0 |}.

(** The quaternion whose cells are those of an array [x, y, z, w]. *)
Definition of_array (q : list R) : Quaternion :=
  {| qx := nth 0 q 0%R; qy := nth 1 q 0%R; qz := nth 2 q 0%R; qw := nth 3 q 0%R |}.

(** The node with another stored pose, the world with another node. *)
Definition store_pose (p : PoseStamped) (n : OdasVisualizationNode)
    : OdasVisualizationNode :=
  {| _configuration := _configuration n;
     _sst_input_PoseStamped := Some p;
     _sst_sub := _sst_sub n; _sst_pose_pub := _sst_pose_pub n;
     _ssl_sub := _ssl_sub n; _ssl_pcl_pub := _ssl_pcl_pub n |}.

Definition log_line (n : nat) : LogLevel * string :=
  (LogError, "Invalid sst (len(sst.sources)=" ++ pretty n ++ ")").

(** The world after one more line in the log. *)
Definition with_log (l : LogLevel * string) (w : World) : World :=
  {| self := self w;
     ros := {| clock := clock (ros w); published := published (ros w);
               rosout := rosout (ros w) ++ [l] |} |}.

(** Two worlds that differ at most in their logs. *)
Definition same_but_log (w1 w2 : World) : Prop :=
  self w1 = self w2
  /\ clock (ros w1) = clock (ros w2)
  /\ published (ros w1) = published (ros w2).

(** What holds of the pose in every state the node reaches. *)
Definition pose_invariant (w : World) : Prop :=
  (forall p, _sst_input_PoseStamped (self w) = Some p -> position (pose p) = origin)
  /\ (forall topic p, In (topic, MPose p) (published (ros w)) ->
        position (pose p) = origin)
  /\ (forall sub, _sst_sub (self w) = Some sub ->
        (exists p, _sst_input_PoseStamped (self w) = Some p)
        /\ _sst_pose_pub (self w)
           = Some {| pub_topic := "sst_pose"; pub_queue_size := 1 |}).

(** Tracking events used as examples. *)
Definition sst_event (l : list OdasSst) : OdasSstArrayStamped :=
  {| sst_header := {| stamp := Time0; frame_id := "odas" |}; sst_sources := l |}.

Definition track_x : OdasSst := {| sst_x := 1; sst_y := 0; sst_z := 0 |}.
Definition track_y : OdasSst := {| sst_x := 0; sst_y := 1; sst_z := 0 |}.

(** ** Rotating a vector *)

(** The rotation a unit quaternion stands for, applied to a vector: the
    vector part of [q v q*]. *)
Module Geometry.
Import Rotation.
Local Open Scope R_scope.

Definition qconj (q : Quaternion) : Quaternion :=
  {| qx := - qx q; qy := - qy q; qz := - qz q; qw := qw q |}.

Definition pure (v : Point) : Quaternion :=
  {| qx := px v; qy := py v; qz := pz v; qw := 0 |}.

Definition rotate (q : Quaternion) (v : Point) : Point :=
  let r := qmul (qmul q (pure v)) (qconj q) in
  {| px := qx r; py := qy r; pz := qz r |}.

Definition norm2 (q : Quaternion) : R :=
  qx q * qx q + qy q * qy q + qz q * qz q + qw q * qw q.

Definition e_x : Point := {| px := 1; py := 0; pz := 0 |}.

End Geometry.

(** ** What a run keeps *)

(** The fields [_ssl_cb] declares for its clouds. *)
Definition ssl_fields : list PointField :=
  [ {| name := "x"; offset := 0; datatype := FLOAT32; count := 1 |};
    {| name := "y"; offset := 4; datatype := FLOAT32; count := 1 |};
    {| name := "z"; offset := 8; datatype := FLOAT32; count := 1 |};
    {| name := "intensity"; offset := 12; datatype := FLOAT32; count := 1 |} ].

(** Two nodes with the same configuration, subscribers and publishers. *)
Definition same_wiring (n n' : OdasVisualizationNode) : Prop :=
  _configuration n' = _configuration n
  /\ _sst_sub n' = _sst_sub n
  /\ _sst_pose_pub n' = _sst_pose_pub n
  /\ _ssl_sub n' = _ssl_sub n
  /\ _ssl_pcl_pub n' = _ssl_pcl_pub n.

(** A subscribed stream has what its callback reads. *)
Definition node_wired (n : OdasVisualizationNode) : Prop :=
  (forall sub, _sst_sub n = Some sub ->
     (exists p, _sst_input_PoseStamped n = Some p)
     /\ _sst_pose_pub n = Some {| pub_topic := "sst_pose"; pub_queue_size := 1 |})
  /\ (forall sub, _ssl_sub n = Some sub ->
        _ssl_pcl_pub n = Some {| pub_topic := "ssl_pcl2"; pub_queue_size := 500 |}).

(** A cloud as [_ssl_cb] builds them: one row of at least one point,
    sixteen bytes a point in four [float32] fields. *)
Definition good_cloud (c : PointCloud2) : Prop :=
  data c <> []
  /\ width c = N.of_nat (length (data c))
  /\ height c = 1%N
  /\ fields c = ssl_fields
  /\ point_step c = 16%N
  /\ row_step c = (16 * width c)%N.

(** A pose as [_sst_cb] sends them: at the origin, with a unit
    quaternion. *)
Definition good_pose (p : PoseStamped) : Prop :=
  position (pose p) = origin
  /\ Geometry.norm2 (orientation (pose p)) = 1%R.

(** A message as the node sends them: a pose on [sst_pose] when the
    tracking stream is subscribed, a cloud on [ssl_pcl2] when the
    localization stream is. *)
Definition good_message (n : OdasVisualizationNode) (tm : string * Msg) : Prop :=
  match tm with
  | (topic, MPose p) => topic = "sst_pose" /\ good_pose p /\ _sst_sub n <> None
  | (topic, MCloud c) => topic = "ssl_pcl2" /\ good_cloud c /\ _ssl_sub n <> None
  end.

(** A line as [_sst_cb] logs them. *)
Definition good_line (l : LogLevel * string) : Prop :=
  exists n, 2 <= n /\ l = log_line n.

Definition run_invariant (w : World) : Prop :=
  node_wired (self w)
  /\ Forall (good_message (self w)) (published (ros w))
  /\ Forall good_line (rosout (ros w)).

(** Worlds used as examples: the node after one event. *)
Definition world_after_track : World :=
  snd (_sst_cb (sst_event [track_x]) world_both_wired).

Definition world_after_cloud : World :=
  snd (_ssl_cb ssl_event_two world_both_wired).

Definition world_after_error : World :=
  snd (_sst_cb (sst_event [track_x; track_y]) world_both_wired).

(** A configuration with no tracking section, and one whose tracking
    group has an interface and no format. *)
Definition conf_no_sst : gmap string pyval :=
  {[ "ssl" := stream_conf "potential" "socket" "json" ]}.

Definition group_no_format : gmap string pyval :=
  {[ "interface" := VDict {[ "type" := VStr "socket" ]} ]}.

Definition conf_sst_no_format : pyval :=
  VDict {[ "ssl" := stream_conf "potential" "socket" "json";
           "sst" := VDict {[ "tracked" := VDict group_no_format ]} ]}.

(** The pose and the cloud sent in these examples. *)
Definition pose_after_track : PoseStamped :=
  {| header := {| stamp := {| secs := 7; nsecs := 0 |}; frame_id := "odas" |};
     pose := {| position := origin;
                orientation :=
                  of_array (Converter._unitVector_to_quaternion 1 0 0) |} |}.

Definition cloud_after_cloud : PointCloud2 :=
  create_cloud {| stamp := {| secs := 7; nsecs := 0 |}; frame_id := "odas" |}
    ssl_fields (map point_of (ssl_sources ssl_event_two)).

(** * Properties *)

(** ** The converter *)

(** Two arrays of reals are equal when their cells are, as polynomials
    in the sines and cosines. *)
Ltac array_eq :=
  repeat (apply (f_equal2 (@cons R)); [ring |]); reflexivity.

Section ConverterFacts.
Import Numeric Converter Rotation.
Local Open Scope R_scope.

Lemma euler_formula_fixed_axes roll pitch yaw :
  euler_to_quaternion roll pitch yaw = fixed_rpy roll pitch yaw.
Proof.
  unfold euler_to_quaternion, fixed_rpy, qmul, rot_x, rot_y, rot_z; simpl.
  f_equal; ring.
Qed.

Lemma quaternion_from_euler_sxyz roll pitch yaw :
  quaternion_from_euler roll pitch yaw sxyz
  = to_array (euler_to_quaternion roll pitch yaw).
Proof.
  unfold quaternion_from_euler, sxyz, to_array, euler_to_quaternion; simpl.
  array_eq.
Qed.

(** With ['rxyz'] the library gives the intrinsic composition. *)
Lemma quaternion_from_euler_rxyz roll pitch yaw :
  quaternion_from_euler roll pitch yaw rxyz
  = to_array (intrinsic_rpy roll pitch yaw).
Proof.
  unfold quaternion_from_euler, rxyz, to_array, intrinsic_rpy, qmul,
    rot_x, rot_y, rot_z; simpl.
  replace (- pitch / 2) with (- (pitch / 2)) by field.
  rewrite cos_neg, sin_neg.
  array_eq.
Qed.

Lemma arctan2_origin : arctan2 0 0 = 0.
Proof.
  unfold arctan2.
  repeat destruct (Rlt_dec _ _); try lra.
Qed.

Lemma arctan2_pos_y_axis y : 0 < y -> arctan2 y 0 = PI / 2.
Proof.
  intros Hy. unfold arctan2.
  repeat destruct (Rlt_dec _ _); try lra.
Qed.

Lemma arctan2_diagonal : arctan2 1 1 = PI / 4.
Proof.
  unfold arctan2.
  destruct (Rlt_dec 0 1); [|lra].
  replace (1 / 1) with 1 by field. apply atan_1.
Qed.

End ConverterFacts.

Section ConverterClaims.
Import Numeric Converter Rotation.
Local Open Scope R_scope.

(** C1, as amended. For every real [x], [y], [z] the converter takes
    [yaw = atan2(y, x)], [pitch = -atan2(z, sqrt(x*x + y*y))] and
    [roll = 0], and returns the array [x, y, z, w] of the quaternion the
    closed Euler formula gives for (roll, pitch, yaw); that quaternion
    is the composition about the fixed axes in the order roll, pitch,
    yaw (the intrinsic order yaw, pitch, roll). *)
Theorem toQuaternion_fixed_axes (x y z : R) :
  let yaw := arctan2 y x in
  let pitch := - arctan2 z (sqrt (x * x + y * y)) in
  let roll := 0 in
  _unitVector_to_quaternion x y z
    = to_array (euler_to_quaternion roll pitch yaw)
  /\ euler_to_quaternion roll pitch yaw = fixed_rpy roll pitch yaw
  /\ _unitVector_to_quaternion x y z
     = [ - (sin (pitch / 2) * sin (yaw / 2));
         sin (pitch / 2) * cos (yaw / 2);
         cos (pitch / 2) * sin (yaw / 2);
         cos (pitch / 2) * cos (yaw / 2) ].
Proof.
  intros yaw pitch roll.
  assert (E : _unitVector_to_quaternion x y z
              = to_array (euler_to_quaternion roll pitch yaw))
    by apply quaternion_from_euler_sxyz.
  split; [exact E|]. split; [apply euler_formula_fixed_axes|].
  rewrite E. unfold to_array, euler_to_quaternion, roll; simpl.
  replace (0 / 2) with 0 by field. rewrite sin_0, cos_0.
  array_eq.
Qed.

(** C1, as stated, fails: for the direction (0, 1, 1) the converter
    does not return the quaternion of the intrinsic order roll, pitch,
    yaw; the two differ in the sign of their x cell. *)
Lemma toQuaternion_not_intrinsic :
  let x := 0 in
  let y := 1 in
  let z := 1 in
  let yaw := arctan2 y x in
  let pitch := - arctan2 z (sqrt (x * x + y * y)) in
  let roll := 0 in
  _unitVector_to_quaternion x y z <> to_array (intrinsic_rpy roll pitch yaw).
Proof.
  intros x y z yaw pitch roll H.
  unfold _unitVector_to_quaternion in H.
  rewrite quaternion_from_euler_sxyz in H.
  apply (f_equal (fun l => nth 0 l 0)) in H.
  unfold roll, pitch, yaw, x, y, z in H.
  replace (0 * 0 + 1 * 1) with 1 in H by ring.
  rewrite sqrt_1, arctan2_diagonal, (arctan2_pos_y_axis 1) in H by lra.
  unfold to_array, euler_to_quaternion, intrinsic_rpy, qmul,
    rot_x, rot_y, rot_z in H; simpl in H.
  replace (0 / 2) with 0 in H by field.
  replace (- (PI / 4) / 2) with (- (PI / 8)) in H by field.
  replace (PI / 2 / 2) with (PI / 4) in H by field.
  rewrite sin_0, cos_0, sin_neg, cos_neg in H.
  pose proof PI_RGT_0 as HPI.
  assert (H8 : 0 < sin (PI / 8)) by (apply sin_gt_0; lra).
  assert (H4 : 0 < sin (PI / 4)) by (apply sin_gt_0; lra).
  nra.
Qed.

(** C10. At the origin the converter returns the identity quaternion
    [0, 0, 0, 1]: both angles are [atan2(0, 0) = 0]. *)
Theorem toQuaternion_origin :
  arctan2 0 0 = 0
  /\ - arctan2 0 (sqrt (0 * 0 + 0 * 0)) = 0
  /\ _unitVector_to_quaternion 0 0 0 = [0; 0; 0; 1].
Proof.
  assert (Hs : sqrt (0 * 0 + 0 * 0) = 0)
    by (replace (0 * 0 + 0 * 0) with 0 by ring; apply sqrt_0).
  split; [apply arctan2_origin|].
  split; [rewrite Hs, arctan2_origin; ring|].
  unfold _unitVector_to_quaternion.
  rewrite Hs, arctan2_origin, quaternion_from_euler_sxyz.
  unfold to_array, euler_to_quaternion; simpl.
  replace (-0 / 2) with 0 by field.
  replace (0 / 2) with 0 by field.
  rewrite sin_0, cos_0.
  array_eq.
Qed.

End ConverterClaims.

(** ** The configuration gate *)

Section GateFacts.

Lemma verify_gate (s : Stream) (w : World) (cfg : pyval) :
  _configuration (self w) = Some cfg ->
  verify s w = (gate s cfg, w).
Proof.
  intros Hc.
  destruct s; unfold verify, _verify_ssl_configuration,
    _verify_sst_configuration, gate, bind, getattr, lift, ret, raise;
    rewrite Hc; unfold type_path, format_path, stream_tag, stream_group;
    (destruct (getpath cfg [_; _; _; _]) as [ty|e]; simpl; [|reflexivity]);
    (destruct (ne_str ty "socket"); [reflexivity|]);
    (destruct (getpath cfg [_; _; _]) as [fmt|e]; simpl; [|reflexivity]);
    destruct (ne_str fmt "json"); reflexivity.
Qed.

Lemma ne_str_true (v : pyval) (s : string) : v <> VStr s -> ne_str v s = true.
Proof.
  destruct v as [u| | | |]; simpl; try reflexivity.
  intros H. destruct (String.eqb_spec u s); [subst; congruence | reflexivity].
Qed.

(** [__init__] on a blank object, by what the two checks answer. *)
Lemma init_outcome (loaded : pyval) (t : Time) :
  __init__ loaded (boot t) =
  match gate Tracking loaded with
  | Raise e =>
      (Raise e, {| self := wired loaded false false; ros := ros (boot t) |})
  | Ok sst_ok =>
      match gate Localization loaded with
      | Raise e =>
          (Raise e, {| self := wired loaded sst_ok false; ros := ros (boot t) |})
      | Ok ssl_ok =>
          (Ok tt, {| self := wired loaded sst_ok ssl_ok; ros := ros (boot t) |})
      end
  end.
Proof.
  pose proof (verify_gate Tracking) as HT.
  pose proof (verify_gate Localization) as HL.
  unfold verify in HT, HL.
  unfold __init__, bind.
  cbn -[_verify_sst_configuration _verify_ssl_configuration].
  rewrite (HT _ loaded) by reflexivity.
  destruct (gate Tracking loaded) as [[|]|e]; [| |reflexivity].
  - cbn -[_verify_sst_configuration _verify_ssl_configuration].
    rewrite (HL _ loaded) by reflexivity.
    destruct (gate Localization loaded) as [[|]|e]; reflexivity.
  - cbn -[_verify_sst_configuration _verify_ssl_configuration].
    rewrite (HL _ loaded) by reflexivity.
    destruct (gate Localization loaded) as [[|]|e]; reflexivity.
Qed.

End GateFacts.

Section GateClaims.

(** C4. When the interface type of a stream is not "socket", the check
    of that stream answers [False] and raises nothing, whatever the
    format is (even a missing one), and it changes nothing; after an
    [__init__] that returns, the stream has neither subscriber nor
    publisher. *)
Theorem gate_not_socket_disabled (s : Stream) (w : World) (cfg ty : pyval) :
  _configuration (self w) = Some cfg ->
  getpath cfg (type_path s) = Ok ty ->
  ty <> VStr "socket" ->
  verify s w = (Ok false, w)
  /\ forall t w', __init__ cfg (boot t) = (Ok tt, w') ->
       subscriber s (self w') = None /\ publisher s (self w') = None.
Proof.
  intros Hc Hty Hne.
  assert (Hg : gate s cfg = Ok false).
  { unfold gate. rewrite Hty. simpl. rewrite ne_str_true by exact Hne.
    reflexivity. }
  split.
  - rewrite (verify_gate s w cfg Hc), Hg. reflexivity.
  - intros t w' Hi. rewrite init_outcome in Hi.
    destruct s; rewrite Hg in Hi.
    + destruct (gate Tracking cfg) as [b|e]; [|discriminate].
      injection Hi as <-. split; reflexivity.
    + destruct (gate Localization cfg) as [b|e]; [|discriminate].
      injection Hi as <-. split; reflexivity.
Qed.

Lemma gate_not_socket_disabled_witness :
  verify Localization (world_of conf_ssl_to_file Time0)
    = (Ok false, world_of conf_ssl_to_file Time0)
  /\ forall t w', __init__ conf_ssl_to_file (boot t) = (Ok tt, w') ->
       subscriber Localization (self w') = None
       /\ publisher Localization (self w') = None.
Proof.
  apply (gate_not_socket_disabled Localization
           (world_of conf_ssl_to_file Time0) conf_ssl_to_file (VStr "file")).
  - reflexivity.
  - vm_compute. reflexivity.
  - discriminate.
Defined.

(** C3. When the interface type of a stream is "socket" and its format
    is not "json", the check of that stream raises a [ValueError] whose
    message names the stream and says the format must be json; nothing
    catches it, [__init__] raises: it raises that very error when the
    stream is the tracking one, or when the check of the tracking
    stream, which runs first, has answered. *)
Theorem gate_socket_format_error (s : Stream) (w : World) (cfg fmt : pyval) :
  _configuration (self w) = Some cfg ->
  getpath cfg (type_path s) = Ok (VStr "socket") ->
  getpath cfg (format_path s) = Ok fmt ->
  fmt <> VStr "json" ->
  let err :=
    ValueError ("The " ++ stream_tag s ++ " format must be "
                ++ dquote ++ "json" ++ dquote) in
  verify s w = (Raise err, w)
  /\ forall t, exists e w',
       __init__ cfg (boot t) = (Raise e, w')
       /\ (s = Tracking \/ (exists b, gate Tracking cfg = Ok b) -> e = err).
Proof.
  intros Hc Hty Hfmt Hne err.
  assert (Hg : gate s cfg = Raise err).
  { unfold gate. rewrite Hty. simpl.
    rewrite Hfmt. simpl. rewrite ne_str_true by exact Hne. reflexivity. }
  split.
  - rewrite (verify_gate s w cfg Hc), Hg. reflexivity.
  - intros t. rewrite init_outcome. destruct s.
    + destruct (gate Tracking cfg) as [b|e] eqn:HT.
      * rewrite Hg. eexists _, _. split; [reflexivity|]. intros _. reflexivity.
      * eexists _, _. split; [reflexivity|].
        intros [H|[b H]]; discriminate.
    + rewrite Hg. eexists _, _. split; [reflexivity|]. intros _. reflexivity.
Qed.

Lemma gate_socket_format_error_witness :
  let err :=
    ValueError ("The " ++ stream_tag Localization ++ " format must be "
                ++ dquote ++ "json" ++ dquote) in
  verify Localization (world_of conf_ssl_binary Time0)
    = (Raise err, world_of conf_ssl_binary Time0)
  /\ forall t, exists e w',
       __init__ conf_ssl_binary (boot t) = (Raise e, w')
       /\ (Localization = Tracking
           \/ (exists b, gate Tracking conf_ssl_binary = Ok b) -> e = err).
Proof.
  apply (gate_socket_format_error Localization
           (world_of conf_ssl_binary Time0) conf_ssl_binary (VStr "binary")).
  - reflexivity.
  - vm_compute. reflexivity.
  - vm_compute. reflexivity.
  - discriminate.
Defined.

End GateClaims.

(** ** The localization callback *)

Section LocalizationFacts.

(** The loop that appends one point per source builds the list of the
    points of the sources, in their order. *)
Lemma append_loop_map {A B : Type} (g : A -> B) (l : list A) (acc : list B) :
  foldl (fun acc x => acc ++ [g x])%list acc l = (acc ++ map g l)%list.
Proof.
  revert acc. induction l as [|a l IH]; intros acc; simpl.
  - rewrite app_nil_r. reflexivity.
  - rewrite IH, <- app_assoc. reflexivity.
Qed.

Lemma lookup_map {A B : Type} (g : A -> B) (l : list A) (i : nat) (a : A) :
  l !! i = Some a -> map g l !! i = Some (g a).
Proof.
  revert i. induction l as [|b l IH]; intros [|i] H; simpl in *;
    try discriminate.
  - injection H as ->. reflexivity.
  - apply IH, H.
Qed.

(** C7. A localization event with no detection: the callback returns
    at once; it raises nothing, sends nothing and changes nothing. *)
Theorem ssl_cb_empty (ev : OdasSslArrayStamped) (w : World) :
  ssl_sources ev = [] ->
  _ssl_cb ev w = (Ok tt, w).
Proof.
  intros H. unfold _ssl_cb. rewrite H. reflexivity.
Qed.

(** C2. A localization event with [N >= 1] detections: the callback
    sends exactly one cloud; its points are the [(x, y, z, E)] of the
    detections, one for each, in their order, so there are [N] of them;
    its frame is the frame of the event and its stamp is the time read
    when the callback runs. *)
Theorem ssl_cb_point_set (ev : OdasSslArrayStamped) (w : World) (pub : Publisher) :
  1 <= length (ssl_sources ev) ->
  _ssl_pcl_pub (self w) = Some pub ->
  exists (pcl : PointCloud2) (w' : World),
    _ssl_cb ev w = (Ok tt, w')
    /\ self w' = self w
    /\ published (ros w') = (published (ros w) ++ [(pub_topic pub, MCloud pcl)])%list
    /\ data pcl = map point_of (ssl_sources ev)
    /\ length (data pcl) = length (ssl_sources ev)
    /\ (forall i d, ssl_sources ev !! i = Some d ->
          data pcl !! i = Some (ssl_x d, ssl_y d, ssl_z d, ssl_E d))
    /\ width pcl = N.of_nat (length (ssl_sources ev))
    /\ frame_id (pc_header pcl) = frame_id (ssl_header ev)
    /\ stamp (pc_header pcl) = clock (ros w).
Proof.
  intros HN Hpub. unfold _ssl_cb.
  destruct (Nat.eqb_spec (length (ssl_sources ev)) 0) as [H0|_]; [lia|].
  destruct (Nat.ltb_spec 0 (length (ssl_sources ev))) as [_|H0]; [|lia].
  pose proof (append_loop_map point_of (ssl_sources ev) []) as HL.
  unfold point_of in HL at 1. rewrite HL. clear HL. cbn [app].
  unfold bind, Time_now, getattr, publish. rewrite Hpub.
  eexists _, _. split; [reflexivity|].
  cbn [self ros published data width pc_header create_cloud frame_id stamp].
  repeat split.
  - apply length_map.
  - intros i d Hi. apply (lookup_map point_of), Hi.
  - unfold create_cloud. cbn [width]. rewrite length_map. reflexivity.
Qed.

End LocalizationFacts.

Lemma ssl_cb_empty_witness :
  ssl_sources ssl_event_empty = []
  /\ _ssl_cb ssl_event_empty world_both_wired = (Ok tt, world_both_wired).
Proof.
  split; [reflexivity|].
  apply (ssl_cb_empty ssl_event_empty world_both_wired). reflexivity.
Defined.

Lemma ssl_cb_point_set_witness :
  exists (pcl : PointCloud2) (w' : World),
    _ssl_cb ssl_event_two world_both_wired = (Ok tt, w')
    /\ self w' = self world_both_wired
    /\ published (ros w') = [("ssl_pcl2", MCloud pcl)]
    /\ data pcl = [(1, 0, 0, 1); (0, 1, 0, 0)]%R.
Proof.
  destruct (ssl_cb_point_set ssl_event_two world_both_wired
              {| pub_topic := "ssl_pcl2"; pub_queue_size := 500 |})
    as (pcl & w' & Hcb & Hself & Hpub & Hdata & _).
  - simpl. lia.
  - reflexivity.
  - exists pcl, w'. repeat split; assumption.
Defined.

(** ** The tracking callback *)

Section TrackingFacts.

Lemma bind_ok {A B : Type} (m : M A) (k : A -> M B) (w w' : World) (a : A) :
  m w = (Ok a, w') -> bind m k w = k a w'.
Proof. intros H. unfold bind. rewrite H. reflexivity. Qed.

Lemma update_pose_run (f : PoseStamped -> PoseStamped) (w : World) (p : PoseStamped) :
  _sst_input_PoseStamped (self w) = Some p ->
  update_pose f w = (Ok tt, {| self := store_pose (f p) (self w); ros := ros w |}).
Proof.
  intros H. unfold update_pose, bind, getattr. rewrite H. reflexivity.
Qed.

(** One track, on a node that has its pose and its publisher. *)
Lemma sst_cb_single (ev : OdasSstArrayStamped) (s : OdasSst) (w : World)
    (p0 : PoseStamped) (pub : Publisher) :
  sst_sources ev = [s] ->
  _sst_input_PoseStamped (self w) = Some p0 ->
  _sst_pose_pub (self w) = Some pub ->
  let p :=
    {| header := {| stamp := clock (ros w); frame_id := frame_id (sst_header ev) |};
       pose := {| position := position (pose p0);
                  orientation :=
                    of_array (Converter._unitVector_to_quaternion
                                (sst_x s) (sst_y s) (sst_z s)) |} |} in
  _sst_cb ev w =
    (Ok tt,
     {| self := store_pose p (self w);
        ros := {| clock := clock (ros w);
                  published := published (ros w) ++ [(pub_topic pub, MPose p)];
                  rosout := rosout (ros w) |} |}).
Proof.
  intros Hs Hp Hpub p. unfold _sst_cb. rewrite Hs.
  cbn [length Nat.eqb Nat.ltb Nat.leb lookup list_lookup].
  repeat (erewrite bind_ok; [|apply update_pose_run; first [exact Hp | reflexivity]]).
  erewrite bind_ok by reflexivity.
  erewrite bind_ok by (apply update_pose_run; reflexivity).
  erewrite bind_ok by (unfold getattr; cbn [self store_pose _sst_pose_pub];
                       rewrite Hpub; reflexivity).
  erewrite bind_ok by reflexivity.
  reflexivity.
Qed.

End TrackingFacts.

Section TrackingSteps.

Lemma sst_cb_none (ev : OdasSstArrayStamped) (w : World) :
  sst_sources ev = [] -> _sst_cb ev w = (Ok tt, w).
Proof. intros H. unfold _sst_cb. rewrite H. reflexivity. Qed.

Lemma sst_cb_many (ev : OdasSstArrayStamped) (w : World) :
  2 <= length (sst_sources ev) ->
  _sst_cb ev w = (Ok tt, with_log (log_line (length (sst_sources ev))) w).
Proof.
  intros H. unfold _sst_cb.
  destruct (Nat.eqb_spec (length (sst_sources ev)) 0) as [H0|_]; [lia|].
  destruct (Nat.ltb_spec 1 (length (sst_sources ev))) as [_|H1]; [|lia].
  reflexivity.
Qed.

(** The callback reads nothing of the log. *)
Lemma sst_cb_same_but_log (ev : OdasSstArrayStamped) (w1 w2 : World) :
  same_but_log w1 w2 ->
  fst (_sst_cb ev w1) = fst (_sst_cb ev w2)
  /\ same_but_log (snd (_sst_cb ev w1)) (snd (_sst_cb ev w2)).
Proof.
  destruct w1 as [n1 [c1 P1 l1]], w2 as [n2 [c2 P2 l2]].
  intros (Hn & Hc & HP); simpl in Hn, Hc, HP; subst n2 c2 P2.
  unfold _sst_cb.
  destruct (sst_sources ev) as [|s [|s' l]]; cbn [length Nat.eqb Nat.ltb Nat.leb].
  - split; [reflexivity|]. repeat split.
  - cbn [lookup list_lookup].
    unfold bind, update_pose, bind, getattr, set_sst_input_PoseStamped,
      bind, get_self, set_self, Time_now, publish, same_but_log.
    cbn [self ros].
    destruct (_sst_input_PoseStamped n1) as [p0|]; cbn;
      [|split; [reflexivity|repeat split]].
    destruct (_sst_pose_pub n1) as [pub|]; cbn;
      split; try reflexivity; repeat split.
  - split; [reflexivity|]. repeat split.
Qed.

(** The localization callback leaves the node as it is and sends
    nothing but clouds. *)
Lemma ssl_cb_effect (ev : OdasSslArrayStamped) (w : World) :
  self (snd (_ssl_cb ev w)) = self w
  /\ (published (ros (snd (_ssl_cb ev w))) = published (ros w)
      \/ exists topic c,
           published (ros (snd (_ssl_cb ev w)))
           = (published (ros w) ++ [(topic, MCloud c)])%list).
Proof.
  unfold _ssl_cb.
  destruct (Nat.eqb (length (ssl_sources ev)) 0); [split; [|left]; reflexivity|].
  destruct (Nat.ltb 0 (length (ssl_sources ev))); [|split; [|left]; reflexivity].
  unfold bind, Time_now, getattr, publish.
  destruct (_ssl_pcl_pub (self w)) as [pub|]; cbn.
  - split; [reflexivity|]. right. eexists _, _. reflexivity.
  - split; [|left]; reflexivity.
Qed.

Lemma pose_invariant_init (loaded : pyval) (t : Time) (w : World) :
  __init__ loaded (boot t) = (Ok tt, w) -> pose_invariant w.
Proof.
  rewrite init_outcome.
  destruct (gate Tracking loaded) as [b1|e]; [|discriminate].
  destruct (gate Localization loaded) as [b2|e]; [|discriminate].
  intros [= <-]. unfold pose_invariant; cbn.
  split; [|split].
  - destruct b1; [|discriminate]. intros p [= <-]. reflexivity.
  - intros topic p [].
  - destruct b1; [|discriminate]. intros sub _. split; [eexists|]; reflexivity.
Qed.

Lemma pose_invariant_step (w w' : World) :
  pose_invariant w -> step w w' -> pose_invariant w'.
Proof.
  intros (Hpos & Hpub & Hwired) Hstep.
  destruct Hstep as [w t | w sub ev r w' Hsub Hcb | w sub ev r w' Hsub Hcb].
  - split; [|split]; assumption.
  - destruct (sst_sources ev) as [|s [|s' l]] eqn:Hs.
    + rewrite sst_cb_none in Hcb by exact Hs.
      injection Hcb as _ <-. split; [|split]; assumption.
    + destruct (Hwired sub Hsub) as [[p0 Hp0] Hp].
      rewrite (sst_cb_single ev s w p0 _ Hs Hp0 Hp) in Hcb.
      injection Hcb as _ <-. split; [|split]; cbn.
      * intros p [= <-]. cbn. apply Hpos, Hp0.
      * intros topic p Hin. apply in_app_or in Hin as [Hin|[Hin|[]]].
        -- apply (Hpub topic p Hin).
        -- injection Hin as _ <-. cbn. apply Hpos, Hp0.
      * intros sub' Hsub'. split; [eexists; reflexivity|].
        apply (Hwired sub' Hsub').
    + rewrite sst_cb_many in Hcb by (rewrite Hs; simpl; lia).
      injection Hcb as _ <-. split; [|split]; assumption.
  - destruct (ssl_cb_effect ev w) as [Hself Hp]. rewrite Hcb in Hself, Hp.
    cbn [snd] in Hself, Hp. unfold pose_invariant. rewrite Hself.
    split; [exact Hpos|]. split; [|exact Hwired].
    intros topic p Hin. destruct Hp as [Hp|(tc & c & Hp)]; rewrite Hp in Hin.
    + apply (Hpub topic p Hin).
    + apply in_app_or in Hin as [Hin|[Hin|[]]]; [apply (Hpub topic p Hin)|].
      discriminate.
Qed.

Lemma reachable_pose_invariant (w : World) : reachable w -> pose_invariant w.
Proof.
  induction 1 as [loaded t w Hi | w w' _ IH Hstep].
  - apply (pose_invariant_init loaded t w Hi).
  - apply (pose_invariant_step w w' IH Hstep).
Qed.

End TrackingSteps.

Example log_line_two :
  log_line 2 = (LogError, "Invalid sst (len(sst.sources)=2)").
Proof. reflexivity. Qed.

Example gate_both_json :
  gate Tracking conf_both_json = Ok true
  /\ gate Localization conf_both_json = Ok true.
Proof. split; vm_compute; reflexivity. Qed.

Example gate_missing_section :
  gate Tracking (VDict ∅) = Raise (KeyError "sst")
  /\ gate Tracking (VStr "sst") = Raise TypeError.
Proof. split; vm_compute; reflexivity. Qed.

Example init_both_json :
  __init__ conf_both_json (boot {| secs := 7; nsecs := 0 |})
  = (Ok tt, world_both_wired).
Proof. rewrite init_outcome. vm_compute. reflexivity. Qed.

Section TrackingClaims.

(** C8. A tracking event with no track: the callback returns at once;
    nothing is sent and the stored pose, like everything else, is what
    it was. *)
Theorem sst_cb_no_track (ev : OdasSstArrayStamped) (w : World) :
  sst_sources ev = [] ->
  exists w',
    _sst_cb ev w = (Ok tt, w')
    /\ published (ros w') = published (ros w)
    /\ _sst_input_PoseStamped (self w') = _sst_input_PoseStamped (self w)
    /\ w' = w.
Proof.
  intros H. exists w. rewrite (sst_cb_none ev w H). repeat split.
Qed.

(** C6. A tracking event with two tracks or more: the callback returns
    without raising, sends nothing, and logs one line at the error
    level that gives the number of tracks; the subscription stays, and
    a later event is handled as it would have been without this one. *)
Theorem sst_cb_many_tracks_reported (ev : OdasSstArrayStamped) (w : World) :
  2 <= length (sst_sources ev) ->
  exists w',
    _sst_cb ev w = (Ok tt, w')
    /\ published (ros w') = published (ros w)
    /\ rosout (ros w')
       = (rosout (ros w)
          ++ [(LogError,
               ("Invalid sst (len(sst.sources)="
                ++ pretty (length (sst_sources ev)) ++ ")")%string)])%list
    /\ _sst_sub (self w') = _sst_sub (self w)
    /\ forall ev2,
         fst (_sst_cb ev2 w') = fst (_sst_cb ev2 w)
         /\ same_but_log (snd (_sst_cb ev2 w')) (snd (_sst_cb ev2 w)).
Proof.
  intros H. eexists. split; [apply (sst_cb_many ev w H)|].
  repeat split.
  - apply sst_cb_same_but_log. repeat split.
  - apply sst_cb_same_but_log. repeat split.
  - apply sst_cb_same_but_log. repeat split.
  - apply sst_cb_same_but_log. repeat split.
Qed.

(** C9. A tracking event with two tracks or more is dropped before any
    write to the stored pose: the node object, and with it every field
    of the pose, is what it was; only the log has grown. *)
Theorem sst_cb_many_tracks_pose_kept (ev : OdasSstArrayStamped) (w : World) :
  2 <= length (sst_sources ev) ->
  self (snd (_sst_cb ev w)) = self w
  /\ _sst_input_PoseStamped (self (snd (_sst_cb ev w)))
     = _sst_input_PoseStamped (self w)
  /\ clock (ros (snd (_sst_cb ev w))) = clock (ros w)
  /\ published (ros (snd (_sst_cb ev w))) = published (ros w).
Proof.
  intros H. rewrite (sst_cb_many ev w H). repeat split.
Qed.

(** C5. In every state the node reaches, the stored pose and every
    pose sent so far have the position (0, 0, 0); and there, a tracking
    event with exactly one track makes the callback send one pose, which
    is the stored pose after the call: its position is the one the
    stored pose had, (0, 0, 0), its orientation is the quaternion of the
    direction of the track, its frame is the frame of the event and its
    stamp the time read in the callback. *)
Theorem sst_cb_single_track_pose (w : World) :
  reachable w ->
  (forall p, _sst_input_PoseStamped (self w) = Some p ->
     position (pose p) = origin)
  /\ (forall topic p, In (topic, MPose p) (published (ros w)) ->
        position (pose p) = origin)
  /\ forall sub ev s,
       _sst_sub (self w) = Some sub ->
       sst_sources ev = [s] ->
       exists p0 p w',
         _sst_input_PoseStamped (self w) = Some p0
         /\ _sst_cb ev w = (Ok tt, w')
         /\ published (ros w') = (published (ros w) ++ [("sst_pose", MPose p)])%list
         /\ self w' = store_pose p (self w)
         /\ position (pose p) = origin
         /\ position (pose p) = position (pose p0)
         /\ orientation (pose p)
            = of_array (Converter._unitVector_to_quaternion
                          (sst_x s) (sst_y s) (sst_z s))
         /\ header p = {| stamp := clock (ros w);
                          frame_id := frame_id (sst_header ev) |}.
Proof.
  intros Hr. destruct (reachable_pose_invariant w Hr) as (Hpos & Hpub & Hwired).
  split; [exact Hpos|]. split; [exact Hpub|].
  intros sub ev s Hsub Hs.
  destruct (Hwired sub Hsub) as [[p0 Hp0] Hp].
  eexists p0, _, _. split; [exact Hp0|].
  split; [apply (sst_cb_single ev s w p0 _ Hs Hp0 Hp)|].
  cbn [self ros published header pose position orientation].
  repeat split. exact (Hpos p0 Hp0).
Qed.

End TrackingClaims.

Lemma sst_cb_no_track_witness :
  exists w',
    _sst_cb (sst_event []) world_both_wired = (Ok tt, w')
    /\ published (ros w') = published (ros world_both_wired)
    /\ _sst_input_PoseStamped (self w')
       = _sst_input_PoseStamped (self world_both_wired)
    /\ w' = world_both_wired.
Proof.
  apply (sst_cb_no_track (sst_event []) world_both_wired). reflexivity.
Defined.

Lemma sst_cb_many_tracks_reported_witness :
  exists w',
    _sst_cb (sst_event [track_x; track_y]) world_both_wired = (Ok tt, w')
    /\ published (ros w') = []
    /\ rosout (ros w') = [(LogError, "Invalid sst (len(sst.sources)=2)")].
Proof.
  destruct (sst_cb_many_tracks_reported (sst_event [track_x; track_y])
              world_both_wired) as (w' & Hcb & Hpub & Hlog & _).
  - simpl. lia.
  - exists w'. repeat split; assumption.
Defined.

Lemma sst_cb_many_tracks_pose_kept_witness :
  self (snd (_sst_cb (sst_event [track_x; track_y]) world_both_wired))
  = self world_both_wired.
Proof.
  apply (sst_cb_many_tracks_pose_kept (sst_event [track_x; track_y])
           world_both_wired).
  simpl. lia.
Defined.

Lemma sst_cb_single_track_pose_witness :
  exists p w',
    _sst_cb (sst_event [track_x]) world_both_wired = (Ok tt, w')
    /\ published (ros w') = [("sst_pose", MPose p)]
    /\ position (pose p) = origin.
Proof.
  destruct (sst_cb_single_track_pose world_both_wired) as (_ & _ & H).
  - apply (reach_init conf_both_json {| secs := 7; nsecs := 0 |}).
    rewrite init_outcome. vm_compute. reflexivity.
  - destruct (H {| sub_topic := "sst"; sub_queue_size := 10 |}
                (sst_event [track_x]) track_x eq_refl eq_refl)
      as (p0 & p & w' & _ & Hcb & Hpub & _ & Hpos & _).
    exists p, w'. repeat split; assumption.
Defined.

(** * Further properties *)

(** ** The angles of a direction *)

Section AngleFacts.
Import Numeric.
Local Open Scope R_scope.

Lemma sq_eq_nonneg (a b : R) : 0 <= a -> 0 <= b -> a * a = b * b -> a = b.
Proof. intros Ha Hb H. nra. Qed.

(** Cosine and sine of [atan (y / x)], scaled by the length of [(x, y)]. *)
Lemma atan_polar (x y : R) :
  x <> 0 ->
  sqrt (x * x + y * y) * cos (atan (y / x)) = Rabs x
  /\ sqrt (x * x + y * y) * sin (atan (y / x)) = y * (Rabs x / x).
Proof.
  intros Hx.
  set (t := y / x). set (r := sqrt (x * x + y * y)).
  assert (Hr : 0 <= r) by apply sqrt_pos.
  assert (Hr2 : r * r = x * x + y * y) by (apply sqrt_sqrt; nra).
  assert (Hc : 0 < cos (atan t))
    by (apply cos_gt_0; pose proof (atan_bound t); lra).
  assert (Ht : sin (atan t) = t * cos (atan t)).
  { pose proof (tan_atan t) as H. unfold tan in H.
    rewrite <- H at 2. field. lra. }
  pose proof (sin2_cos2 (atan t)) as H1. unfold Rsqr in H1.
  assert (Hcx : r * cos (atan t) = Rabs x).
  { apply sq_eq_nonneg; [nra | apply Rabs_pos |].
    replace (Rabs x * Rabs x) with (x * x)
      by (unfold Rabs; destruct (Rcase_abs x); ring).
    rewrite Ht in H1.
    assert (Hxt : x * t = y) by (unfold t; field; exact Hx).
    replace (r * cos (atan t) * (r * cos (atan t)))
      with ((x * x + y * y) * (cos (atan t) * cos (atan t)))
      by (rewrite <- Hr2; ring).
    rewrite <- Hxt. nra. }
  split; [exact Hcx|].
  rewrite Ht.
  replace (r * (t * cos (atan t))) with (t * (r * cos (atan t))) by ring.
  rewrite Hcx. unfold t. field. exact Hx.
Qed.

Lemma arctan2_polar (x y : R) :
  sqrt (x * x + y * y) * cos (arctan2 y x) = x
  /\ sqrt (x * x + y * y) * sin (arctan2 y x) = y.
Proof.
  unfold arctan2.
  destruct (Rlt_dec 0 x) as [Hx|Hx].
  - destruct (atan_polar x y) as [Hc Hs]; [lra|].
    rewrite Hc, Hs, (Rabs_pos_eq x) by lra. split; [reflexivity|field; lra].
  - destruct (Rlt_dec x 0) as [Hx'|Hx'].
    + destruct (atan_polar x y) as [Hc Hs]; [lra|].
      rewrite (Rabs_left x) in Hc, Hs by lra.
      destruct (Rle_dec 0 y).
      * rewrite neg_cos, neg_sin. split.
        -- rewrite Ropp_mult_distr_r_reverse, Hc. ring.
        -- rewrite Ropp_mult_distr_r_reverse, Hs. field. lra.
      * unfold Rminus. rewrite cos_plus, sin_plus, cos_neg, sin_neg, cos_PI, sin_PI.
        split.
        -- replace (cos (atan (y / x)) * -1 - sin (atan (y / x)) * - 0)
             with (- cos (atan (y / x))) by ring.
           rewrite Ropp_mult_distr_r_reverse, Hc. ring.
        -- replace (sin (atan (y / x)) * -1 + cos (atan (y / x)) * - 0)
             with (- sin (atan (y / x))) by ring.
           rewrite Ropp_mult_distr_r_reverse, Hs. field. lra.
    + assert (x = 0) by lra. subst x.
      replace (0 * 0 + y * y) with (y * y) by ring.
      destruct (Rlt_dec 0 y) as [Hy|Hy].
      * rewrite cos_PI2, sin_PI2, sqrt_square by lra. split; ring.
      * destruct (Rlt_dec y 0) as [Hy'|Hy'].
        -- rewrite cos_neg, sin_neg, cos_PI2, sin_PI2.
           replace (y * y) with (- y * - y) by ring.
           rewrite sqrt_square by lra. split; ring.
        -- assert (y = 0) by lra. subst y.
           replace (0 * 0) with 0 by ring. rewrite sqrt_0. split; ring.
Qed.

Lemma arctan2_range (x y : R) : - PI < arctan2 y x <= PI.
Proof.
  pose proof PI_RGT_0 as HPI. pose proof (atan_bound (y / x)) as [Hl Hu].
  unfold arctan2.
  destruct (Rlt_dec 0 x) as [Hx|Hx]; [lra|].
  destruct (Rlt_dec x 0) as [Hx'|Hx'].
  - assert (Hix : / x < 0) by (apply Rinv_lt_0_compat; exact Hx').
    destruct (Rle_dec 0 y) as [Hy|Hy].
    + assert (atan (y / x) <= 0).
      { destruct (Rle_lt_or_eq_dec 0 y Hy) as [Hy'|<-].
        - apply Rlt_le. rewrite <- atan_0. apply atan_increasing.
          unfold Rdiv. nra.
        - unfold Rdiv. rewrite Rmult_0_l, atan_0. lra. }
      lra.
    + assert (0 < atan (y / x)).
      { rewrite <- atan_0. apply atan_increasing. unfold Rdiv. nra. }
      lra.
  - destruct (Rlt_dec 0 y); [lra|]. destruct (Rlt_dec y 0); lra.
Qed.

Lemma arctan2_right_half (x y : R) :
  0 <= x -> - (PI / 2) <= arctan2 y x <= PI / 2.
Proof.
  intros Hx. pose proof PI_RGT_0 as HPI.
  pose proof (atan_bound (y / x)) as [Hl Hu].
  unfold arctan2.
  destruct (Rlt_dec 0 x); [lra|].
  destruct (Rlt_dec x 0); [lra|].
  destruct (Rlt_dec 0 y); [lra|]. destruct (Rlt_dec y 0); lra.
Qed.

Lemma arctan2_scale (k x y : R) :
  0 < k -> arctan2 (k * y) (k * x) = arctan2 y x.
Proof.
  intros Hk. unfold arctan2.
  destruct (Rlt_dec 0 x) as [Hx|Hx].
  - destruct (Rlt_dec 0 (k * x)); [|nra]. f_equal. field. split; lra.
  - destruct (Rlt_dec 0 (k * x)); [nra|].
    destruct (Rlt_dec x 0) as [Hx'|Hx'].
    + destruct (Rlt_dec (k * x) 0); [|nra].
      replace (k * y / (k * x)) with (y / x) by (field; split; lra).
      destruct (Rle_dec 0 y), (Rle_dec 0 (k * y)); try reflexivity; nra.
    + destruct (Rlt_dec (k * x) 0); [nra|].
      destruct (Rlt_dec 0 y), (Rlt_dec 0 (k * y)); try reflexivity; try nra.
      destruct (Rlt_dec y 0), (Rlt_dec (k * y) 0); try reflexivity; nra.
Qed.

End AngleFacts.

(** ** The quaternion of a direction *)

Section ConverterFurther.
Import Numeric Converter Rotation Geometry.
Local Open Scope R_scope.

Lemma toQuaternion_cells (x y z : R) :
  let yaw := arctan2 y x in
  let pitch := - arctan2 z (sqrt (x * x + y * y)) in
  _unitVector_to_quaternion x y z
  = [ - (sin (pitch / 2) * sin (yaw / 2));
      sin (pitch / 2) * cos (yaw / 2);
      cos (pitch / 2) * sin (yaw / 2);
      cos (pitch / 2) * cos (yaw / 2) ].
Proof.
  intros yaw pitch. unfold yaw, pitch, _unitVector_to_quaternion.
  rewrite quaternion_from_euler_sxyz.
  unfold to_array, euler_to_quaternion; simpl.
  replace (0 / 2) with 0 by field. rewrite sin_0, cos_0.
  array_eq.
Qed.

Lemma half_angle (a : R) :
  cos a = cos (a / 2) * cos (a / 2) - sin (a / 2) * sin (a / 2)
  /\ sin a = 2 * sin (a / 2) * cos (a / 2)
  /\ sin (a / 2) * sin (a / 2) + cos (a / 2) * cos (a / 2) = 1.
Proof.
  split; [|split].
  - rewrite <- cos_2a. f_equal. field.
  - rewrite <- sin_2a. f_equal. field.
  - pose proof (sin2_cos2 (a / 2)) as H. unfold Rsqr in H. exact H.
Qed.

Lemma toQuaternion_norm2 (x y z : R) :
  norm2 (of_array (_unitVector_to_quaternion x y z)) = 1.
Proof.
  rewrite toQuaternion_cells. unfold norm2, of_array; simpl.
  set (p := - arctan2 z (sqrt (x * x + y * y))). set (w := arctan2 y x).
  destruct (half_angle p) as (_ & _ & Hp).
  destruct (half_angle w) as (_ & _ & Hw).
  transitivity ((sin (p / 2) * sin (p / 2) + cos (p / 2) * cos (p / 2))
                * (sin (w / 2) * sin (w / 2) + cos (w / 2) * cos (w / 2)));
    [ring|]. rewrite Hp, Hw. ring.
Qed.

(** X1. Whatever the direction, the origin included, the converter
    returns a unit quaternion: the squares of its four cells add up to
    one. *)
Theorem toQuaternion_unit (x y z : R) :
  let q := _unitVector_to_quaternion x y z in
  nth 0 q 0 * nth 0 q 0 + nth 1 q 0 * nth 1 q 0
  + nth 2 q 0 * nth 2 q 0 + nth 3 q 0 * nth 3 q 0 = 1.
Proof.
  intros q. exact (toQuaternion_norm2 x y z).
Qed.

(** X2. The yaw lies in the interval from [-PI] (excluded) to [PI], the
    pitch between [-PI/2] and [PI/2], and the [w] cell of the quaternion
    returned is never negative. *)
Theorem toQuaternion_angles_and_w (x y z : R) :
  let yaw := arctan2 y x in
  let pitch := - arctan2 z (sqrt (x * x + y * y)) in
  - PI < yaw <= PI
  /\ - (PI / 2) <= pitch <= PI / 2
  /\ 0 <= nth 3 (_unitVector_to_quaternion x y z) 0.
Proof.
  intros yaw pitch.
  pose proof (arctan2_range x y) as Hy. fold yaw in Hy.
  pose proof (arctan2_right_half (sqrt (x * x + y * y)) z (sqrt_pos _)) as Hp.
  assert (Hp' : - (PI / 2) <= pitch <= PI / 2) by (unfold pitch; lra).
  split; [exact Hy|]. split; [exact Hp'|].
  rewrite toQuaternion_cells. fold yaw pitch. simpl.
  apply Rmult_le_pos; apply cos_ge_0; lra.
Qed.

(** X3. The converter depends on the direction only, not on the length:
    a vector and its multiple by a positive factor give the same
    quaternion. *)
Theorem toQuaternion_scale (k x y z : R) :
  0 < k ->
  _unitVector_to_quaternion (k * x) (k * y) (k * z)
  = _unitVector_to_quaternion x y z.
Proof.
  intros Hk. unfold _unitVector_to_quaternion.
  replace (k * x * (k * x) + k * y * (k * y)) with (k * k * (x * x + y * y))
    by ring.
  rewrite sqrt_mult, sqrt_square by nra.
  rewrite !arctan2_scale by exact Hk. reflexivity.
Qed.

(** X4. The quaternion returned turns the x axis onto the direction
    given: the image of (1, 0, 0), scaled by the length of (x, y, z), is
    (x, y, z). *)
Theorem toQuaternion_points_x_axis (x y z : R) :
  let q := of_array (_unitVector_to_quaternion x y z) in
  let len := sqrt (x * x + y * y + z * z) in
  len * px (rotate q e_x) = x
  /\ len * py (rotate q e_x) = y
  /\ len * pz (rotate q e_x) = z.
Proof.
  intros q len. unfold q. rewrite toQuaternion_cells.
  set (r := sqrt (x * x + y * y)).
  set (a := arctan2 z r). set (w := arctan2 y x).
  assert (Hr2 : r * r = x * x + y * y) by (apply sqrt_sqrt; nra).
  destruct (arctan2_polar x y) as [Hwc Hws]. fold r w in Hwc, Hws.
  destruct (arctan2_polar r z) as [Hac Has]. fold a in Hac, Has.
  rewrite Hr2 in Hac, Has. fold len in Hac, Has.
  destruct (half_angle (- a)) as (Hc & Hs & H1).
  destruct (half_angle w) as (Hc' & Hs' & H1').
  rewrite cos_neg in Hc. rewrite sin_neg in Hs.
  unfold rotate, qmul, qconj, pure, e_x, of_array; simpl.
  set (sp := sin (- a / 2)) in *. set (cp := cos (- a / 2)) in *.
  set (sw := sin (w / 2)) in *. set (cw := cos (w / 2)) in *.
  assert (Ex : len * (cos a * cos w) = x) by (rewrite <- Rmult_assoc, Hac; exact Hwc).
  assert (Ey : len * (cos a * sin w) = y) by (rewrite <- Rmult_assoc, Hac; exact Hws).
  split; [|split].
  - transitivity (len * (cos a * cos w)); [|exact Ex].
    rewrite Hc, Hc'. f_equal. ring.
  - transitivity (len * (cos a * sin w)); [|exact Ey].
    rewrite Hc, Hs'. f_equal. ring.
  - transitivity (len * sin a); [|exact Has].
    replace (sin a) with (- - sin a) by ring. rewrite Hs. f_equal.
    transitivity (- (2 * sp * cp) * (sw * sw + cw * cw)); [ring|].
    rewrite H1'. ring.
Qed.

End ConverterFurther.

(** ** The checks and the constructor *)

Section GateFurther.

Lemma ne_str_false (v : pyval) (s : string) : ne_str v s = false -> v = VStr s.
Proof.
  destruct v as [u| | | |]; simpl; try discriminate.
  intros H. destruct (String.eqb_spec u s); [subst; reflexivity | discriminate].
Qed.

Lemma gate_true_iff (s : Stream) (cfg : pyval) :
  gate s cfg = Ok true <->
  getpath cfg (type_path s) = Ok (VStr "socket")
  /\ getpath cfg (format_path s) = Ok (VStr "json").
Proof.
  unfold gate. split.
  - destruct (getpath cfg (type_path s)) as [ty|e]; simpl; [|discriminate].
    destruct (ne_str ty "socket") eqn:Hty; [discriminate|].
    apply ne_str_false in Hty. subst ty.
    destruct (getpath cfg (format_path s)) as [fmt|e]; simpl; [|discriminate].
    destruct (ne_str fmt "json") eqn:Hf; [discriminate|].
    apply ne_str_false in Hf. subst fmt. intros _. split; reflexivity.
  - intros [-> ->]. reflexivity.
Qed.

(** X5. With a configuration loaded, a check answers [True] exactly when
    the interface type of its stream is "socket" and its format is
    "json"; it changes nothing. *)
Theorem gate_enabled_iff (s : Stream) (w : World) (cfg : pyval) :
  _configuration (self w) = Some cfg ->
  (verify s w = (Ok true, w) <->
   getpath cfg (type_path s) = Ok (VStr "socket")
   /\ getpath cfg (format_path s) = Ok (VStr "json")).
Proof.
  intros Hc. rewrite (verify_gate s w cfg Hc), <- gate_true_iff.
  split; [intros [= ->]; reflexivity | intros ->; reflexivity].
Qed.

(** X6. A configuration without the section of a stream: the check of
    that stream raises [KeyError] with the name of the section, and
    [__init__] raises. *)
Theorem gate_missing_section_raises (s : Stream) (w : World)
    (d : gmap string pyval) :
  _configuration (self w) = Some (VDict d) ->
  d !! stream_tag s = None ->
  verify s w = (Raise (KeyError (stream_tag s)), w)
  /\ forall t, exists e w', __init__ (VDict d) (boot t) = (Raise e, w').
Proof.
  intros Hc Hd.
  assert (Hg : gate s (VDict d) = Raise (KeyError (stream_tag s))).
  { unfold gate, type_path, getpath. simpl. rewrite Hd. reflexivity. }
  split.
  - rewrite (verify_gate s w _ Hc), Hg. reflexivity.
  - intros t. rewrite init_outcome. destruct s.
    + destruct (gate Tracking (VDict d)) as [b|e].
      * rewrite Hg. eexists _, _. reflexivity.
      * eexists _, _. reflexivity.
    + rewrite Hg. eexists _, _. reflexivity.
Qed.

(** X7. A stream on a socket whose group has no format: the check raises
    [KeyError] for the key "format" (when the type is not "socket" the
    format is never read). *)
Theorem gate_missing_format_raises (s : Stream) (w : World) (cfg : pyval)
    (d : gmap string pyval) :
  _configuration (self w) = Some cfg ->
  getpath cfg (type_path s) = Ok (VStr "socket") ->
  getpath cfg [stream_tag s; stream_group s] = Ok (VDict d) ->
  d !! "format" = None ->
  verify s w = (Raise (KeyError "format"), w).
Proof.
  intros Hc Hty Hgrp Hd.
  rewrite (verify_gate s w cfg Hc). unfold gate. rewrite Hty. simpl.
  replace (getpath cfg (format_path s))
    with (rbind (getpath cfg [stream_tag s; stream_group s])
                (fun g => getitem g "format")) by reflexivity.
  rewrite Hgrp. simpl. rewrite Hd. reflexivity.
Qed.

(** X8. [__init__] returns exactly when both checks answer; the node it
    leaves has the subscribers, publishers and pose of the streams whose
    check answered [True] and no others, and it has sent and logged
    nothing. *)
Theorem init_returns_iff (loaded : pyval) (t : Time) (w : World) :
  __init__ loaded (boot t) = (Ok tt, w) <->
  exists sst_ok ssl_ok,
    fst (verify Tracking (world_of loaded t)) = Ok sst_ok
    /\ fst (verify Localization (world_of loaded t)) = Ok ssl_ok
    /\ w = {| self := wired loaded sst_ok ssl_ok; ros := ros (boot t) |}.
Proof.
  rewrite init_outcome.
  rewrite !(verify_gate _ (world_of loaded t) loaded) by reflexivity.
  cbn [fst]. split.
  - destruct (gate Tracking loaded) as [b1|e]; [|discriminate].
    destruct (gate Localization loaded) as [b2|e]; [|discriminate].
    intros [= <-]. exists b1, b2. repeat split.
  - intros (b1 & b2 & -> & -> & ->). reflexivity.
Qed.

(** X9. When [__init__] returns and the interface type of a stream is
    "socket", the format of that stream is "json" and the stream is
    wired: tracking listens on [sst] and sends on [sst_pose] with queues
    of 10 and 1 and holds the pose a constructor without arguments
    builds; localization listens on [ssl] and sends on [ssl_pcl2] with
    queues of 10 and 500. *)
Theorem init_socket_stream_wired (s : Stream) (loaded : pyval) (t : Time)
    (w : World) :
  __init__ loaded (boot t) = (Ok tt, w) ->
  getpath loaded (type_path s) = Ok (VStr "socket") ->
  getpath loaded (format_path s) = Ok (VStr "json")
  /\ match s with
     | Tracking =>
         _sst_sub (self w) = Some {| sub_topic := "sst"; sub_queue_size := 10 |}
         /\ _sst_pose_pub (self w)
            = Some {| pub_topic := "sst_pose"; pub_queue_size := 1 |}
         /\ _sst_input_PoseStamped (self w) = Some PoseStamped0
     | Localization =>
         _ssl_sub (self w) = Some {| sub_topic := "ssl"; sub_queue_size := 10 |}
         /\ _ssl_pcl_pub (self w)
            = Some {| pub_topic := "ssl_pcl2"; pub_queue_size := 500 |}
     end.
Proof.
  intros Hi Hty. rewrite init_outcome in Hi.
  assert (Hg : forall b, gate s loaded = Ok b ->
                 b = true /\ getpath loaded (format_path s) = Ok (VStr "json")).
  { intros b Hb. unfold gate in Hb. rewrite Hty in Hb. simpl in Hb.
    destruct (getpath loaded (format_path s)) as [fmt|e]; simpl in Hb;
      [|discriminate].
    destruct (ne_str fmt "json") eqn:Hf; [discriminate|].
    apply ne_str_false in Hf. subst fmt. injection Hb as <-.
    split; reflexivity. }
  destruct (gate Tracking loaded) as [b1|e] eqn:H1; [|discriminate].
  destruct (gate Localization loaded) as [b2|e] eqn:H2; [|discriminate].
  injection Hi as <-. destruct s.
  - destruct (Hg b2 H2) as [-> Hf]. split; [exact Hf|]. split; reflexivity.
  - destruct (Hg b1 H1) as [-> Hf]. split; [exact Hf|]. repeat split.
Qed.

End GateFurther.

(** ** The callbacks, on any node *)

Section CallbackFurther.

Lemma ssl_fields_size : struct_size ssl_fields = 16%N.
Proof. reflexivity. Qed.

(** The localization callback with a publisher and a source or more. *)
Lemma ssl_cb_some (ev : OdasSslArrayStamped) (w : World) (pub : Publisher) :
  ssl_sources ev <> [] ->
  _ssl_pcl_pub (self w) = Some pub ->
  _ssl_cb ev w =
    (Ok tt,
     {| self := self w;
        ros := {| clock := clock (ros w);
                  published :=
                    published (ros w)
                    ++ [(pub_topic pub,
                         MCloud (create_cloud
                                   {| stamp := clock (ros w);
                                      frame_id := frame_id (ssl_header ev) |}
                                   ssl_fields
                                   (map point_of (ssl_sources ev))))];
                  rosout := rosout (ros w) |} |}).
Proof.
  intros Hne Hpub. unfold _ssl_cb.
  destruct (ssl_sources ev) as [|d l] eqn:Hs; [congruence|].
  cbn [length Nat.eqb Nat.ltb Nat.leb].
  pose proof (append_loop_map point_of (d :: l) []) as HL.
  unfold point_of in HL at 1. rewrite HL. clear HL. cbn [app].
  unfold bind, Time_now, getattr, publish. rewrite Hpub. reflexivity.
Qed.

(** X10. Whatever the node and the event, the localization callback
    leaves the node object, the clock and the log as they are, also when
    it raises; it sends one message at most. *)
Theorem ssl_cb_touches_only_topic (ev : OdasSslArrayStamped) (w : World) :
  self (snd (_ssl_cb ev w)) = self w
  /\ clock (ros (snd (_ssl_cb ev w))) = clock (ros w)
  /\ rosout (ros (snd (_ssl_cb ev w))) = rosout (ros w)
  /\ exists l, published (ros (snd (_ssl_cb ev w))) = (published (ros w) ++ l)%list
               /\ length l <= 1.
Proof.
  unfold _ssl_cb.
  destruct (Nat.eqb (length (ssl_sources ev)) 0);
    [repeat split; exists []; rewrite app_nil_r; split; [reflexivity|simpl; lia]|].
  destruct (Nat.ltb 0 (length (ssl_sources ev)));
    [|repeat split; exists []; rewrite app_nil_r; split; [reflexivity|simpl; lia]].
  unfold bind, Time_now, getattr, publish.
  destruct (_ssl_pcl_pub (self w)) as [pub|]; cbn.
  - repeat split. eexists [_]. split; [reflexivity|simpl; lia].
  - repeat split. exists []. rewrite app_nil_r. split; [reflexivity|simpl; lia].
Qed.

(** The tracking callback reads the node and the clock only. *)
Lemma sst_cb_reads_node_and_clock (ev : OdasSstArrayStamped) (w1 w2 : World) :
  self w1 = self w2 ->
  clock (ros w1) = clock (ros w2) ->
  fst (_sst_cb ev w1) = fst (_sst_cb ev w2)
  /\ self (snd (_sst_cb ev w1)) = self (snd (_sst_cb ev w2))
  /\ clock (ros (snd (_sst_cb ev w1))) = clock (ros (snd (_sst_cb ev w2)))
  /\ exists l l',
       published (ros (snd (_sst_cb ev w1))) = (published (ros w1) ++ l)%list
       /\ published (ros (snd (_sst_cb ev w2))) = (published (ros w2) ++ l)%list
       /\ rosout (ros (snd (_sst_cb ev w1))) = (rosout (ros w1) ++ l')%list
       /\ rosout (ros (snd (_sst_cb ev w2))) = (rosout (ros w2) ++ l')%list.
Proof.
  destruct w1 as [n1 [c1 P1 l1]], w2 as [n2 [c2 P2 l2]].
  simpl. intros <- <-.
  unfold _sst_cb.
  destruct (sst_sources ev) as [|s [|s' l]]; cbn [length Nat.eqb Nat.ltb Nat.leb].
  - repeat split. exists [], []. rewrite !app_nil_r. repeat split.
  - cbn [lookup list_lookup].
    unfold bind, update_pose, bind, getattr, set_sst_input_PoseStamped,
      bind, get_self, set_self, Time_now, publish.
    cbn [self ros].
    destruct (_sst_input_PoseStamped n1) as [p0|]; cbn.
    + destruct (_sst_pose_pub n1) as [pub|]; cbn.
      * repeat split. eexists [_], []. rewrite !app_nil_r. repeat split.
      * repeat split. exists [], []. rewrite !app_nil_r. repeat split.
    + repeat split. exists [], []. rewrite !app_nil_r. repeat split.
  - repeat split. cbn. eexists [], [_]. rewrite !app_nil_r. repeat split.
Qed.

(** The tracking callback writes the stored pose only. *)
Lemma sst_cb_wiring (ev : OdasSstArrayStamped) (w : World) :
  same_wiring (self w) (self (snd (_sst_cb ev w))).
Proof.
  unfold _sst_cb, same_wiring.
  destruct (sst_sources ev) as [|s [|s' l]]; cbn [length Nat.eqb Nat.ltb Nat.leb].
  - repeat split.
  - cbn [lookup list_lookup].
    unfold bind, update_pose, bind, getattr, set_sst_input_PoseStamped,
      bind, get_self, set_self, Time_now, publish.
    destruct (_sst_input_PoseStamped (self w)) as [p0|]; cbn; [|repeat split].
    destruct (_sst_pose_pub (self w)) as [pub|]; cbn; repeat split.
  - repeat split.
Qed.

Lemma sst_cb_clock (ev : OdasSstArrayStamped) (w : World) :
  clock (ros (snd (_sst_cb ev w))) = clock (ros w).
Proof.
  unfold _sst_cb.
  destruct (sst_sources ev) as [|s [|s' l]];
    cbn [length Nat.eqb Nat.ltb Nat.leb]; try reflexivity.
  cbn [lookup list_lookup].
  unfold bind, update_pose, bind, getattr, set_sst_input_PoseStamped,
    bind, get_self, set_self, Time_now, publish.
  destruct (_sst_input_PoseStamped (self w)) as [p0|]; cbn; [|reflexivity].
  destruct (_sst_pose_pub (self w)) as [pub|]; reflexivity.
Qed.

Lemma ssl_cb_clock (ev : OdasSslArrayStamped) (w : World) :
  clock (ros (snd (_ssl_cb ev w))) = clock (ros w).
Proof.
  unfold _ssl_cb.
  destruct (Nat.eqb _ 0); [reflexivity|].
  destruct (Nat.ltb 0 _); [|reflexivity].
  unfold bind, Time_now, getattr, publish.
  destruct (_ssl_pcl_pub (self w)); reflexivity.
Qed.

Lemma ssl_cb_none (ev : OdasSslArrayStamped) (w : World) :
  ssl_sources ev = [] -> _ssl_cb ev w = (Ok tt, w).
Proof. intros H. unfold _ssl_cb. rewrite H. reflexivity. Qed.

(** X11. The two callbacks do not disturb each other: a tracking event
    is handled in the same way, with the same result, node and message
    sent, after a localization event as without it, and a localization
    event in the same way after a tracking event as without it. *)
Theorem callbacks_independent (e_ssl : OdasSslArrayStamped)
    (e_sst : OdasSstArrayStamped) (w : World) :
  let w_ssl := snd (_ssl_cb e_ssl w) in
  let w_sst := snd (_sst_cb e_sst w) in
  (fst (_sst_cb e_sst w_ssl) = fst (_sst_cb e_sst w)
   /\ self (snd (_sst_cb e_sst w_ssl)) = self (snd (_sst_cb e_sst w))
   /\ exists l,
        published (ros (snd (_sst_cb e_sst w_ssl))) = (published (ros w_ssl) ++ l)%list
        /\ published (ros w_sst) = (published (ros w) ++ l)%list)
  /\ (fst (_ssl_cb e_ssl w_sst) = fst (_ssl_cb e_ssl w)
      /\ exists l,
           published (ros (snd (_ssl_cb e_ssl w_sst))) = (published (ros w_sst) ++ l)%list
           /\ published (ros w_ssl) = (published (ros w) ++ l)%list).
Proof.
  intros w_ssl w_sst. split.
  - destruct (ssl_cb_effect e_ssl w) as [Hself _].
    assert (Hclock : clock (ros w_ssl) = clock (ros w)).
    { apply ssl_cb_clock. }
    destruct (sst_cb_reads_node_and_clock e_sst w_ssl w Hself Hclock)
      as (Hr & Hs & _ & l & l' & Hp1 & Hp2 & _).
    split; [exact Hr|]. split; [exact Hs|]. exists l. split; assumption.
  - destruct (sst_cb_wiring e_sst w) as (_ & _ & _ & _ & Hpub).
    fold w_sst in Hpub.
    assert (Hclock : clock (ros w_sst) = clock (ros w)).
    { apply sst_cb_clock. }
    unfold w_ssl. unfold _ssl_cb.
    destruct (Nat.eqb (length (ssl_sources e_ssl)) 0);
      [split; [reflexivity|]; exists []; rewrite !app_nil_r; split; reflexivity|].
    destruct (Nat.ltb 0 (length (ssl_sources e_ssl)));
      [|split; [reflexivity|]; exists []; rewrite !app_nil_r; split; reflexivity].
    unfold bind, Time_now, getattr, publish. rewrite Hpub, Hclock.
    destruct (_ssl_pcl_pub (self w)) as [pub|]; cbn.
    + split; [reflexivity|]. eexists [_]. split; reflexivity.
    + split; [reflexivity|]. exists []. rewrite !app_nil_r. split; reflexivity.
Qed.

(** X12. Handling a single-track event twice, at the same clock time:
    the second call leaves the stored pose as the first one made it and
    sends that same pose again. *)
Theorem sst_cb_repeat (ev : OdasSstArrayStamped) (s : OdasSst) (w : World)
    (p0 : PoseStamped) (pub : Publisher) :
  sst_sources ev = [s] ->
  _sst_input_PoseStamped (self w) = Some p0 ->
  _sst_pose_pub (self w) = Some pub ->
  let w1 := snd (_sst_cb ev w) in
  let w2 := snd (_sst_cb ev w1) in
  exists p,
    _sst_input_PoseStamped (self w1) = Some p
    /\ fst (_sst_cb ev w1) = Ok tt
    /\ self w2 = self w1
    /\ published (ros w1) = (published (ros w) ++ [(pub_topic pub, MPose p)])%list
    /\ published (ros w2) = (published (ros w1) ++ [(pub_topic pub, MPose p)])%list.
Proof.
  intros Hs Hp Hpub w1 w2. unfold w2, w1.
  rewrite (sst_cb_single ev s w p0 pub Hs Hp Hpub). cbn [snd].
  erewrite (sst_cb_single ev s _ _ pub Hs); [|reflexivity|exact Hpub].
  eexists. repeat split.
Qed.

End CallbackFurther.

(** ** What every run keeps *)

Section RunFurther.

Lemma good_message_wiring (n n' : OdasVisualizationNode) (tm : string * Msg) :
  same_wiring n n' -> good_message n tm -> good_message n' tm.
Proof.
  intros (_ & Hsst & _ & Hssl & _). destruct tm as [topic [p|c]]; simpl;
    rewrite ?Hsst, ?Hssl; intros H; exact H.
Qed.

Lemma node_wired_store (n : OdasVisualizationNode) (p : PoseStamped) :
  node_wired n -> node_wired (store_pose p n).
Proof.
  intros [Hsst Hssl]. split; cbn.
  - intros sub Hsub. split; [eexists; reflexivity | apply (Hsst sub Hsub)].
  - exact Hssl.
Qed.

Lemma store_pose_wiring (n : OdasVisualizationNode) (p : PoseStamped) :
  same_wiring n (store_pose p n).
Proof. repeat split. Qed.

Lemma good_cloud_created (h : Header) (l : list OdasSsl) :
  l <> [] -> good_cloud (create_cloud h ssl_fields (map point_of l)).
Proof.
  intros Hl. unfold good_cloud, create_cloud; cbn [data width height fields
    point_step row_step].
  rewrite ssl_fields_size. repeat split.
  destruct l; [congruence | discriminate].
Qed.

Lemma run_invariant_init (loaded : pyval) (t : Time) (w : World) :
  __init__ loaded (boot t) = (Ok tt, w) -> run_invariant w.
Proof.
  rewrite init_outcome.
  destruct (gate Tracking loaded) as [b1|e]; [|discriminate].
  destruct (gate Localization loaded) as [b2|e]; [|discriminate].
  intros [= <-]. unfold run_invariant, node_wired; cbn.
  repeat split; try constructor.
  - destruct b1; [eexists; reflexivity | discriminate].
  - destruct b1; [reflexivity | discriminate].
  - destruct b2; [reflexivity | discriminate].
Qed.

Lemma run_invariant_step (w w' : World) :
  pose_invariant w -> run_invariant w -> step w w' -> run_invariant w'.
Proof.
  intros (Hpos & _ & _) (Hwired & Hmsg & Hlog) Hstep.
  destruct Hstep as [w t | w sub ev r w' Hsub Hcb | w sub ev r w' Hsub Hcb].
  - split; [|split]; assumption.
  - destruct (sst_sources ev) as [|s [|s' l]] eqn:Hs.
    + rewrite sst_cb_none in Hcb by exact Hs.
      injection Hcb as _ <-. split; [|split]; assumption.
    + destruct (proj1 Hwired sub Hsub) as [[p0 Hp0] Hp].
      rewrite (sst_cb_single ev s w p0 _ Hs Hp0 Hp) in Hcb.
      injection Hcb as _ <-. split; [|split]; cbn [self ros published rosout].
      * apply node_wired_store, Hwired.
      * apply Forall_app. split.
        -- eapply Forall_impl; [exact Hmsg|].
           intros tm. apply good_message_wiring, store_pose_wiring.
        -- constructor; [|constructor]. cbn. split; [reflexivity|].
           split; [|rewrite Hsub; discriminate].
           split; [exact (Hpos p0 Hp0)|]. cbn. apply toQuaternion_norm2.
      * exact Hlog.
    + rewrite sst_cb_many in Hcb by (rewrite Hs; simpl; lia).
      injection Hcb as _ <-. split; [|split]; cbn [self ros published rosout with_log].
      * exact Hwired.
      * exact Hmsg.
      * apply Forall_app. split; [exact Hlog|].
        constructor; [|constructor]. eexists. split; [|reflexivity].
        rewrite Hs. simpl. lia.
  - pose proof (proj2 Hwired sub Hsub) as Hp.
    destruct (ssl_sources ev) as [|d l] eqn:Hs.
    + rewrite ssl_cb_none in Hcb by exact Hs.
      injection Hcb as _ <-. split; [|split]; assumption.
    + rewrite (ssl_cb_some ev w {| pub_topic := "ssl_pcl2"; pub_queue_size := 500 |}) in Hcb; [|rewrite Hs; discriminate|exact Hp].
      injection Hcb as _ <-. split; [|split]; cbn [self ros published rosout].
      * exact Hwired.
      * apply Forall_app. split; [exact Hmsg|].
        constructor; [|constructor]. cbn [good_message pub_topic].
        split; [reflexivity|]. split; [|rewrite Hsub; discriminate].
        apply good_cloud_created. rewrite Hs. discriminate.
      * exact Hlog.
Qed.

Lemma reachable_run_invariant (w : World) : reachable w -> run_invariant w.
Proof.
  induction 1 as [loaded t w Hi | w w' Hr IH Hstep].
  - apply (run_invariant_init loaded t w Hi).
  - apply (run_invariant_step w w' (reachable_pose_invariant w Hr) IH Hstep).
Qed.


(** X14. Every pose the node has sent, in any state it reaches, went to
    [sst_pose], from a node subscribed to the tracking stream, and
    carries a unit quaternion. *)
Theorem reachable_poses_unit (w : World) (topic : string) (p : PoseStamped) :
  reachable w ->
  In (topic, MPose p) (published (ros w)) ->
  topic = "sst_pose"
  /\ Geometry.norm2 (orientation (pose p)) = 1%R
  /\ _sst_sub (self w) <> None.
Proof.
  intros Hr Hin. destruct (reachable_run_invariant w Hr) as (_ & Hmsg & _).
  rewrite Forall_forall in Hmsg.
  destruct (Hmsg (topic, MPose p)) as (Ht & [_ Hn] & Hs);
    [apply list_elem_of_In; exact Hin|].
  repeat split; assumption.
Qed.

(** X15. Every cloud the node has sent, in any state it reaches, went to
    [ssl_pcl2], from a node subscribed to the localization stream; it has
    one point at least, one row, as many columns as points, the four
    fields x, y, z, intensity, sixteen bytes a point and sixteen times
    its width a row. *)
Theorem reachable_clouds_well_formed (w : World) (topic : string)
    (c : PointCloud2) :
  reachable w ->
  In (topic, MCloud c) (published (ros w)) ->
  topic = "ssl_pcl2"
  /\ _ssl_sub (self w) <> None
  /\ data c <> []
  /\ width c = N.of_nat (length (data c))
  /\ height c = 1%N
  /\ map name (fields c) = ["x"; "y"; "z"; "intensity"]
  /\ point_step c = 16%N
  /\ row_step c = (16 * width c)%N.
Proof.
  intros Hr Hin. destruct (reachable_run_invariant w Hr) as (_ & Hmsg & _).
  rewrite Forall_forall in Hmsg.
  destruct (Hmsg (topic, MCloud c)) as (Ht & (Hd & Hw & Hh & Hf & Hp & Hrow) & Hs);
    [apply list_elem_of_In; exact Hin|].
  rewrite Hf. repeat split; assumption.
Qed.

(** X16. Every line the node has logged, in any state it reaches, is an
    error line of the tracking callback, for a number of tracks of two or
    more. *)
Theorem reachable_log_lines (w : World) (lvl : LogLevel) (msg : string) :
  reachable w ->
  In (lvl, msg) (rosout (ros w)) ->
  lvl = LogError
  /\ exists n, 2 <= n
       /\ msg = "Invalid sst (len(sst.sources)=" ++ pretty n ++ ")".
Proof.
  intros Hr Hin. destruct (reachable_run_invariant w Hr) as (_ & _ & Hlog).
  rewrite Forall_forall in Hlog.
  destruct (Hlog (lvl, msg)) as (n & Hn & Heq);
    [apply list_elem_of_In; exact Hin|].
  unfold log_line in Heq. injection Heq as -> ->.
  split; [reflexivity|]. exists n. split; [exact Hn | reflexivity].
Qed.

(** X17. A step of the run changes neither the configuration nor a
    subscriber nor a publisher of the node, and it adds one message at
    most to what was sent and one line at most to the log, taking
    nothing away. *)
Theorem step_keeps_wiring_and_appends (w w' : World) :
  step w w' ->
  same_wiring (self w) (self w')
  /\ exists sent lines,
       published (ros w') = (published (ros w) ++ sent)%list
       /\ rosout (ros w') = (rosout (ros w) ++ lines)%list
       /\ length sent + length lines <= 1.
Proof.
  intros Hstep.
  destruct Hstep as [w t | w sub ev r w' Hsub Hcb | w sub ev r w' Hsub Hcb].
  - split; [repeat split|]. exists [], []. cbn. rewrite !app_nil_r.
    repeat split. lia.
  - split.
    + pose proof (sst_cb_wiring ev w) as H. rewrite Hcb in H. exact H.
    + assert (Hw : w' = snd (_sst_cb ev w)) by (rewrite Hcb; reflexivity).
      subst w'. clear Hcb. unfold _sst_cb.
      destruct (sst_sources ev) as [|s [|s' l]];
        cbn [length Nat.eqb Nat.ltb Nat.leb].
      * exists [], []. cbn. rewrite !app_nil_r. repeat split. lia.
      * cbn [lookup list_lookup].
        unfold bind, update_pose, bind, getattr, set_sst_input_PoseStamped,
          bind, get_self, set_self, Time_now, publish.
        destruct (_sst_input_PoseStamped (self w)) as [p0|]; cbn;
          [|exists [], []; cbn; rewrite !app_nil_r; repeat split; lia].
        destruct (_sst_pose_pub (self w)) as [pub|]; cbn.
        -- eexists [_], []. cbn. rewrite !app_nil_r. repeat split. lia.
        -- exists [], []. cbn. rewrite !app_nil_r. repeat split. lia.
      * eexists [], [_]. cbn. rewrite !app_nil_r. repeat split. lia.
  - assert (Hw : w' = snd (_ssl_cb ev w)) by (rewrite Hcb; reflexivity).
    subst w'. clear Hcb.
    destruct (ssl_cb_effect ev w) as [Hself _]. split.
    + rewrite Hself. repeat split.
    + unfold _ssl_cb.
      destruct (Nat.eqb (length (ssl_sources ev)) 0);
        [exists [], []; cbn; rewrite !app_nil_r; repeat split; lia|].
      destruct (Nat.ltb 0 (length (ssl_sources ev)));
        [|exists [], []; cbn; rewrite !app_nil_r; repeat split; lia].
      unfold bind, Time_now, getattr, publish.
      destruct (_ssl_pcl_pub (self w)) as [pub|]; cbn.
      * eexists [_], []. cbn. rewrite !app_nil_r. repeat split. lia.
      * exists [], []. cbn. rewrite !app_nil_r. repeat split. lia.
Qed.

End RunFurther.

(** ** Instances *)

Lemma toQuaternion_scale_witness :
  Converter._unitVector_to_quaternion (2 * 1) (2 * 2) (2 * 3)
  = Converter._unitVector_to_quaternion 1 2 3.
Proof. apply (toQuaternion_scale 2 1 2 3). lra. Defined.

Lemma gate_enabled_iff_witness :
  verify Tracking (world_of conf_both_json Time0)
  = (Ok true, world_of conf_both_json Time0).
Proof.
  apply (gate_enabled_iff Tracking (world_of conf_both_json Time0) conf_both_json).
  - reflexivity.
  - split; vm_compute; reflexivity.
Defined.

Lemma gate_missing_section_raises_witness :
  verify Tracking (world_of (VDict conf_no_sst) Time0)
  = (Raise (KeyError "sst"), world_of (VDict conf_no_sst) Time0).
Proof.
  apply (gate_missing_section_raises Tracking
           (world_of (VDict conf_no_sst) Time0) conf_no_sst).
  - reflexivity.
  - vm_compute. reflexivity.
Defined.

Lemma gate_missing_format_raises_witness :
  verify Tracking (world_of conf_sst_no_format Time0)
  = (Raise (KeyError "format"), world_of conf_sst_no_format Time0).
Proof.
  apply (gate_missing_format_raises Tracking
           (world_of conf_sst_no_format Time0) conf_sst_no_format group_no_format).
  - reflexivity.
  - vm_compute. reflexivity.
  - vm_compute. reflexivity.
  - vm_compute. reflexivity.
Defined.

Lemma init_socket_stream_wired_witness :
  _ssl_sub (self world_both_wired)
  = Some {| sub_topic := "ssl"; sub_queue_size := 10 |}
  /\ _ssl_pcl_pub (self world_both_wired)
     = Some {| pub_topic := "ssl_pcl2"; pub_queue_size := 500 |}.
Proof.
  apply (init_socket_stream_wired Localization conf_both_json
           {| secs := 7; nsecs := 0 |} world_both_wired).
  - rewrite init_outcome. vm_compute. reflexivity.
  - vm_compute. reflexivity.
Defined.

Lemma sst_cb_repeat_witness :
  exists p,
    _sst_input_PoseStamped (self world_after_track) = Some p
    /\ self (snd (_sst_cb (sst_event [track_x]) world_after_track))
       = self world_after_track.
Proof.
  destruct (sst_cb_repeat (sst_event [track_x]) track_x world_both_wired
              PoseStamped0 {| pub_topic := "sst_pose"; pub_queue_size := 1 |}
              eq_refl eq_refl eq_refl) as (p & Hp & _ & Hself & _).
  exists p. split; assumption.
Defined.

Lemma reachable_world_both_wired : reachable world_both_wired.
Proof.
  apply (reach_init conf_both_json {| secs := 7; nsecs := 0 |}).
  rewrite init_outcome. vm_compute. reflexivity.
Defined.

Lemma reachable_world_after_track : reachable world_after_track.
Proof.
  apply (reach_step world_both_wired); [exact reachable_world_both_wired|].
  apply (step_sst world_both_wired {| sub_topic := "sst"; sub_queue_size := 10 |}
           (sst_event [track_x]) (fst (_sst_cb (sst_event [track_x]) world_both_wired)));
    [reflexivity|].
  unfold world_after_track.
  destruct (_sst_cb (sst_event [track_x]) world_both_wired). reflexivity.
Defined.

Lemma reachable_world_after_cloud : reachable world_after_cloud.
Proof.
  apply (reach_step world_both_wired); [exact reachable_world_both_wired|].
  apply (step_ssl world_both_wired {| sub_topic := "ssl"; sub_queue_size := 10 |}
           ssl_event_two (fst (_ssl_cb ssl_event_two world_both_wired)));
    [reflexivity|].
  unfold world_after_cloud.
  destruct (_ssl_cb ssl_event_two world_both_wired). reflexivity.
Defined.

Lemma reachable_world_after_error : reachable world_after_error.
Proof.
  apply (reach_step world_both_wired); [exact reachable_world_both_wired|].
  apply (step_sst world_both_wired {| sub_topic := "sst"; sub_queue_size := 10 |}
           (sst_event [track_x; track_y])
           (fst (_sst_cb (sst_event [track_x; track_y]) world_both_wired)));
    [reflexivity|].
  unfold world_after_error.
  destruct (_sst_cb (sst_event [track_x; track_y]) world_both_wired). reflexivity.
Defined.


Lemma reachable_poses_unit_witness :
  In ("sst_pose", MPose pose_after_track) (published (ros world_after_track))
  /\ Geometry.norm2 (orientation (pose pose_after_track)) = 1%R.
Proof.
  assert (Hin : In ("sst_pose", MPose pose_after_track)
                   (published (ros world_after_track))).
  { unfold world_after_track.
    rewrite (sst_cb_single (sst_event [track_x]) track_x world_both_wired
               PoseStamped0 {| pub_topic := "sst_pose"; pub_queue_size := 1 |}
               eq_refl eq_refl eq_refl).
    left. reflexivity. }
  split; [exact Hin|].
  apply (reachable_poses_unit world_after_track _ _
           reachable_world_after_track Hin).
Defined.

Lemma reachable_clouds_well_formed_witness :
  In ("ssl_pcl2", MCloud cloud_after_cloud) (published (ros world_after_cloud))
  /\ point_step cloud_after_cloud = 16%N
  /\ row_step cloud_after_cloud = (16 * width cloud_after_cloud)%N.
Proof.
  assert (Hin : In ("ssl_pcl2", MCloud cloud_after_cloud)
                   (published (ros world_after_cloud))).
  { unfold world_after_cloud.
    rewrite (ssl_cb_some ssl_event_two world_both_wired
               {| pub_topic := "ssl_pcl2"; pub_queue_size := 500 |});
      [left; reflexivity | discriminate | reflexivity]. }
  split; [exact Hin|].
  apply (reachable_clouds_well_formed world_after_cloud _ _
           reachable_world_after_cloud Hin).
Defined.

Lemma reachable_log_lines_witness :
  In (LogError, "Invalid sst (len(sst.sources)=2)") (rosout (ros world_after_error))
  /\ exists n, 2 <= n
       /\ "Invalid sst (len(sst.sources)=2)"
          = "Invalid sst (len(sst.sources)=" ++ pretty n ++ ")".
Proof.
  assert (Hin : In (LogError, "Invalid sst (len(sst.sources)=2)")
                   (rosout (ros world_after_error))).
  { left. reflexivity. }
  split; [exact Hin|].
  apply (reachable_log_lines world_after_error _ _
           reachable_world_after_error Hin).
Defined.

Lemma step_keeps_wiring_and_appends_witness :
  same_wiring (self world_both_wired) (self world_after_track).
Proof.
  apply (step_keeps_wiring_and_appends world_both_wired world_after_track).
  apply (step_sst world_both_wired {| sub_topic := "sst"; sub_queue_size := 10 |}
           (sst_event [track_x]) (fst (_sst_cb (sst_event [track_x]) world_both_wired)));
    [reflexivity|].
  unfold world_after_track.
  destruct (_sst_cb (sst_event [track_x]) world_both_wired). reflexivity.
Defined.
